(** * TriviaAPI: the Flask request handlers of [backend/flaskr/__init__.py]

    A shallow embedding of the seven views registered by [create_app] and of
    the pieces of Python, Flask, SQLAlchemy and PostgreSQL they call, followed
    by the properties of the endpoints.

    Conventions.
    - A Python value is a [pyval]; a JSON number is an integer literal here
      (fractional literals decode to IEEE doubles and are left out).
    - Text is a sequence of 8-bit characters ([string]); letter case is the
      ASCII one.
    - A view is a computation in [py]: it reads and writes the database and
      either returns a value or raises a Python exception. *)

From Stdlib Require Import ZArith String Ascii List Bool Lia DecimalString.
From Stdlib Require Decimal DecimalPos.
From stdpp Require Import base tactics option list sorting.

Import ListNotations.
Set Warnings "-register-all".
Local Open Scope string_scope.
Local Open Scope list_scope.
Local Open Scope Z_scope.

(** ** Python values *)

Inductive pykey :=
| KStr (s : string)
| KInt (z : Z).

Inductive pyval :=
| PNone
| PBool (b : bool)
| PInt (z : Z)
| PStr (s : string)
| PList (l : list pyval)
| PDict (d : list (pykey * pyval)).

Definition pykey_eqb (a b : pykey) : bool :=
  match a, b with
  | KStr s, KStr t => String.eqb s t
  | KInt x, KInt y => Z.eqb x y
  | _, _ => false
  end.

(** A [dict] keeps its keys in insertion order; assigning to a key that is
    present replaces the value where it stands. *)
Definition dict := list (pykey * pyval).

Fixpoint dict_get (k : pykey) (d : dict) : option pyval :=
  match d with
  | [] => None
  | (k', v) :: d' => if pykey_eqb k k' then Some v else dict_get k d'
  end.

Fixpoint dict_set (k : pykey) (v : pyval) (d : dict) : dict :=
  match d with
  | [] => [(k, v)]
  | (k', v') :: d' =>
      if pykey_eqb k k' then (k, v) :: d' else (k', v') :: dict_set k v d'
  end.

(** [{key(x): value(x) for x in xs}] *)
Definition dict_comprehension {A} (key : A -> pykey) (value : A -> pyval)
    (xs : list A) : dict :=
  fold_left (fun d x => dict_set (key x) (value x) d) xs [].

(** ** Exceptions and the monad of views *)

Inductive exn :=
| KeyError
| TypeError
| ValueError
| AttributeError
| IndexError
| DataError            (* sqlalchemy.exc.DataError *)
| ProgrammingError     (* sqlalchemy.exc.ProgrammingError *)
| IntegrityError       (* sqlalchemy.exc.IntegrityError *)
| HTTPException (code : Z).

Inductive outcome (A : Type) :=
| Return (a : A)
| Raise (e : exn).
Arguments Return {A} a.
Arguments Raise {A} e.

(** Modelled from the spec: the two models of [models.py], which is not
    among the sources, as section 3 gives them. Apart from its key a column
    of a question may hold NULL, which is [None]: nothing is enforced on a
    question beyond the presence of its four fields at creation. *)
Module Question.
Record t := Build {
  id : Z;
  question : option string;
  answer : option string;
  category : option Z;
  difficulty : option Z
}.
End Question.

Module Category.
Record t := Build {
  id : Z;
  type : string
}.
End Category.

(** The persisted state: the two tables, rows in heap order, and the last
    value handed out by the sequence behind [Question.id]. *)
Record db := Db {
  questions : list Question.t;
  questions_id_seq : Z;
  categories : list Category.t
}.

Definition py (A : Type) : Type := db -> outcome A * db.

Definition ret {A} (a : A) : py A := fun s => (Return a, s).
Definition raise {A} (e : exn) : py A := fun s => (Raise e, s).
Definition bind {A B} (m : py A) (k : A -> py B) : py B :=
  fun s =>
    match m s with
    | (Return a, s') => k a s'
    | (Raise e, s') => (Raise e, s')
    end.
Definition lift {A} (o : outcome A) : py A := fun s => (o, s).

Notation "'let*' x := m 'in' k" := (bind m (fun x => k))
  (at level 10, x name, m at level 100, k at level 200, only parsing).

(** [try: body except ...:]; [handler e = None] when no clause names [e]. *)
Definition try_except {A} (body : py A) (handler : exn -> option (py A))
    : py A :=
  fun s =>
    match body s with
    | (Return a, s') => (Return a, s')
    | (Raise e, s') =>
        match handler e with
        | Some h => h s'
        | None => (Raise e, s')
        end
    end.

(** [flask.abort(code)] *)
Definition abort {A} (code : Z) : py A := raise (HTTPException code).

(** ** Python built-ins used by the views *)

Definition chars (s : string) : list ascii := list_ascii_of_string s.
Definition text (l : list ascii) : string := string_of_list_ascii l.

Definition code (c : ascii) : Z := Z.of_nat (nat_of_ascii c).

Definition is_digit (c : ascii) : bool := (48 <=? code c) && (code c <=? 57).
Definition digit (c : ascii) : Z := code c - 48.

Definition decimal (z : Z) : string := NilZero.string_of_int (Z.to_int z).

(** [obj[key]] for a string key *)
Definition subscript (obj : pyval) (key : string) : outcome pyval :=
  match obj with
  | PDict d =>
      match dict_get (KStr key) d with
      | Some v => Return v
      | None => Raise KeyError
      end
  | _ => Raise TypeError
  end.

(** [obj.get(key)]: only a dict has the method *)
Definition dot_get (obj : pyval) (key : string) : outcome pyval :=
  match obj with
  | PDict d =>
      match dict_get (KStr key) d with
      | Some v => Return v
      | None => Return PNone
      end
  | _ => Raise AttributeError
  end.

(** White space stripped by [int(str)]: TAB..CR, FS..US and SPACE. *)
Definition py_isspace (c : ascii) : bool :=
  ((9 <=? code c) && (code c <=? 13)) || ((28 <=? code c) && (code c <=? 32)).

Fixpoint lstrip (sp : ascii -> bool) (l : list ascii) : list ascii :=
  match l with
  | c :: l' => if sp c then lstrip sp l' else l
  | [] => []
  end.

Definition strip (sp : ascii -> bool) (l : list ascii) : list ascii :=
  rev (lstrip sp (rev (lstrip sp l))).

(** Digits of a base-10 literal, single underscores allowed between digits.
    [ends] says that the text read so far may end the literal. *)
Fixpoint py_digits (acc : Z) (ends : bool) (l : list ascii) : option Z :=
  match l with
  | [] => if ends then Some acc else None
  | c :: l' =>
      if is_digit c then py_digits (10 * acc + digit c) true l'
      else if Ascii.eqb c "_" && ends then py_digits acc false l'
      else None
  end.

(** [int(s)] for a string: [None] stands for [ValueError]. *)
Definition py_int_of_string (s : string) : option Z :=
  match strip py_isspace (chars s) with
  | "-"%char :: l => option_map Z.opp (py_digits 0 false l)
  | "+"%char :: l => py_digits 0 false l
  | l => py_digits 0 false l
  end.

(** [int(v)] *)
Definition py_int (v : pyval) : outcome Z :=
  match v with
  | PInt z => Return z
  | PBool b => Return (if b then 1 else 0)
  | PStr s =>
      match py_int_of_string s with
      | Some z => Return z
      | None => Raise ValueError
      end
  | PNone | PList _ | PDict _ => Raise TypeError
  end.

(** [repr] of a string: single quotes unless the text has a single quote
    and no double quote. *)
Definition hex_digit (n : Z) : ascii :=
  nth (Z.to_nat n) (chars "0123456789abcdef") "0"%char.

Definition repr_char (quote c : ascii) : list ascii :=
  if Ascii.eqb c quote || Ascii.eqb c "\" then ["\"%char; c]
  else if code c =? 9 then chars "\t"
  else if code c =? 10 then chars "\n"
  else if code c =? 13 then chars "\r"
  else if (code c <? 32) || (code c =? 127)
       then ["\"%char; "x"%char; hex_digit (code c / 16); hex_digit (code c mod 16)]
  else [c].

Definition double_quote : ascii := ascii_of_nat 34.

Definition repr_str (s : string) : string :=
  let l := chars s in
  let quote :=
    if existsb (Ascii.eqb "'") l && negb (existsb (Ascii.eqb double_quote) l)
    then double_quote else "'"%char in
  text ([quote] ++ flat_map (repr_char quote) l ++ [quote]).

Definition repr_key (k : pykey) : string :=
  match k with
  | KStr s => repr_str s
  | KInt z => decimal z
  end.

Fixpoint join (sep : string) (l : list string) : string :=
  match l with
  | [] => ""
  | [s] => s
  | s :: l' => (s ++ sep ++ join sep l')%string
  end.

Fixpoint py_repr (v : pyval) : string :=
  match v with
  | PNone => "None"
  | PBool true => "True"
  | PBool false => "False"
  | PInt z => decimal z
  | PStr s => repr_str s
  | PList l => ("[" ++ join ", " (map py_repr l) ++ "]")%string
  | PDict d =>
      let item kv := (repr_key (fst kv) ++ ": " ++ py_repr (snd kv))%string in
      ("{" ++ join ", " (map item d) ++ "}")%string
  end.

(** [str(v)], which is what [f'{v}'] interpolates *)
Definition py_str (v : pyval) : string :=
  match v with
  | PStr s => s
  | _ => py_repr v
  end.

(** [random.randrange(0, n)]: an empty range raises [ValueError]; otherwise
    the generator yields [draw], one of the [n] equally likely integers
    [0 <= draw < n]. *)
Definition randrange (draw : nat) (n : nat) : outcome nat :=
  if (n =? 0)%nat then Raise ValueError else Return draw.

(** [l[i]] for a non-negative index *)
Definition getitem {A} (l : list A) (i : nat) : outcome A :=
  match l !! i with
  | Some x => Return x
  | None => Raise IndexError
  end.

(** ** The storage engine (PostgreSQL behind SQLAlchemy)

    The engine is not part of the repository. What follows fixes the
    behaviour the views rely on: how a literal is read as an INTEGER, what
    LIMIT and OFFSET accept, how ILIKE matches, and which driver error each
    refusal raises. *)

Definition int4_min : Z := -2147483648.
Definition int4_max : Z := 2147483647.
Definition int8_max : Z := 9223372036854775807.

Definition in_int4 (z : Z) : bool := (int4_min <=? z) && (z <=? int4_max).

(** White space of the engine's number input: SPACE and TAB..CR. *)
Definition pg_isspace (c : ascii) : bool :=
  (code c =? 32) || ((9 <=? code c) && (code c <=? 13)).

(** A run of digits, and what follows it. *)
Fixpoint pg_digits (acc : Z) (l : list ascii) : Z * list ascii :=
  match l with
  | c :: l' => if is_digit c then pg_digits (10 * acc + digit c) l' else (acc, l)
  | [] => (acc, [])
  end.

Definition starts_with_digit (l : list ascii) : bool :=
  match l with
  | c :: _ => is_digit c
  | [] => false
  end.

(** The INTEGER input function, in decimal: optional white space, optional
    sign, at least one digit, optional white space, the value within 32
    bits. [None] is the engine's data error (bad syntax or out of range). *)
Definition pg_int4in (s : string) : option Z :=
  let l := lstrip pg_isspace (chars s) in
  let '(neg, l) :=
    match l with
    | "-"%char :: l' => (true, l')
    | "+"%char :: l' => (false, l')
    | _ => (false, l)
    end in
  if starts_with_digit l then
    let '(n, rest) := pg_digits 0 l in
    let z := if neg then - n else n in
    if forallb pg_isspace rest && in_int4 z then Some z else None
  else None.

(** An element of an IN list compared with an INTEGER column: [Return None]
    is SQL NULL. A quoted literal goes through [pg_int4in]; a number is
    compared as a number whatever its size; the engine has no operator
    for a boolean, and a container is taken to be refused. *)
Definition pg_integer_operand (v : pyval) : outcome (option Z) :=
  match v with
  | PNone => Return None
  | PInt z => Return (Some z)
  | PStr s =>
      match pg_int4in s with
      | Some z => Return (Some z)
      | None => Raise DataError
      end
  | PBool _ | PList _ | PDict _ => Raise ProgrammingError
  end.

(** A value stored in an INTEGER column; [None] is stored as NULL. *)
Definition pg_integer_store (v : pyval) : outcome (option Z) :=
  match v with
  | PNone => Return None
  | PInt z => if in_int4 z then Return (Some z) else Raise DataError
  | PStr s =>
      match pg_int4in s with
      | Some z => Return (Some z)
      | None => Raise DataError
      end
  | PBool _ | PList _ | PDict _ => Raise ProgrammingError
  end.

(** A value stored in a text column: numbers and booleans are cast to
    their text form on assignment. Containers are taken to be refused. *)
Definition pg_text_store (v : pyval) : outcome (option string) :=
  match v with
  | PNone => Return None
  | PStr s => Return (Some s)
  | PInt z => Return (Some (decimal z))
  | PBool b => Return (Some (if b then "true" else "false"))
  | PList _ | PDict _ => Raise ProgrammingError
  end.

(** [LIMIT limit OFFSET offset]: both are 64-bit and must not be negative. *)
Definition pg_limit_offset {A} (limit offset : Z) (rows : list A)
    : outcome (list A) :=
  if (limit <? 0) || (int8_max <? limit) || (offset <? 0) || (int8_max <? offset)
  then Raise DataError
  else Return (take (Z.to_nat limit) (drop (Z.to_nat offset) rows)).

(** *** LIKE and ILIKE *)

Definition lower (c : ascii) : ascii :=
  if (65 <=? code c) && (code c <=? 90)
  then ascii_of_nat (nat_of_ascii c + 32)
  else c.

(** [like eqc p t]: the text [t] matches the pattern [p]. In a pattern
    [%] stands for any run of characters, [_] for any one character, and a
    backslash makes the next character literal; [eqc] compares a literal
    pattern character with a character of the text. *)
Fixpoint like (eqc : ascii -> ascii -> bool) (p t : list ascii) {struct p}
    : bool :=
  match p with
  | [] => match t with [] => true | _ :: _ => false end
  | c :: p' =>
      if Ascii.eqb c "%" then
        (fix any (t : list ascii) : bool :=
           like eqc p' t ||
           match t with [] => false | _ :: t' => any t' end) t
      else if Ascii.eqb c "_" then
        match t with [] => false | _ :: t' => like eqc p' t' end
      else if Ascii.eqb c "\" then
        match p' with
        | [] => false
        | e :: p'' =>
            match t with
            | [] => false
            | a :: t' => eqc e a && like eqc p'' t'
            end
        end
      else
        match t with
        | [] => false
        | a :: t' => eqc c a && like eqc p' t'
        end
  end.

(** A pattern that ends in an unpaired backslash is refused by the engine. *)
Fixpoint dangling_escape (p : list ascii) : bool :=
  match p with
  | [] => false
  | c :: p' =>
      if Ascii.eqb c "\" then
        match p' with
        | [] => true
        | _ :: p'' => dangling_escape p''
        end
      else dangling_escape p'
  end.

Definition eq_nocase (a b : ascii) : bool := Ascii.eqb (lower a) (lower b).

(** [txt ILIKE pattern] is true; it is not when [txt] is NULL. *)
Definition pg_ilike (pattern : string) (txt : option string) : bool :=
  match txt with
  | Some t => like eq_nocase (chars pattern) (chars t)
  | None => false
  end.

(** ** The models ([models.py]) and the queries the views issue *)

Definition by_question_id : relation Question.t :=
  fun a b => Question.id a <= Question.id b.

Definition by_category_id : relation Category.t :=
  fun a b => Category.id a <= Category.id b.

#[global] Instance by_question_id_dec : RelDecision by_question_id.
Proof. intros a b. unfold by_question_id. apply _. Defined.

#[global] Instance by_category_id_dec : RelDecision by_category_id.
Proof. intros a b. unfold by_category_id. apply _. Defined.

Definition nullable {A} (f : A -> pyval) (o : option A) : pyval :=
  match o with
  | Some a => f a
  | None => PNone
  end.

(** Modelled from the spec: [Question.format] of [models.py], which is not
    among the sources; the glossary gives the public representation as
    id, question text, answer, category, difficulty. *)
Definition format (q : Question.t) : pyval :=
  PDict [(KStr "id", PInt (Question.id q));
         (KStr "question", nullable PStr (Question.question q));
         (KStr "answer", nullable PStr (Question.answer q));
         (KStr "category", nullable PInt (Question.category q));
         (KStr "difficulty", nullable PInt (Question.difficulty q))].

(** A query that reads the tables and may be refused by the engine. *)
Definition query {A} (f : db -> outcome A) : py A := fun s => (f s, s).

(** [Category.query.order_by(Category.id).all()] *)
Definition Category_query_order_by_id_all : py (list Category.t) :=
  query (fun s => Return (merge_sort by_category_id (categories s))).

(** [Question.query.order_by(Question.id).limit(limit).offset(offset).all()] *)
Definition Question_query_order_by_id_limit_offset_all (limit offset : Z)
    : py (list Question.t) :=
  query (fun s =>
    pg_limit_offset limit offset (merge_sort by_question_id (questions s))).

(** [Question.query.count()] *)
Definition Question_query_count : py Z :=
  query (fun s => Return (Z.of_nat (length (questions s)))).

(** [Question.query.get(ident)] for a key given as text: [None] when no
    row has the key. *)
Definition Question_query_get (ident : string) : py (option Question.t) :=
  query (fun s =>
    match pg_int4in ident with
    | None => Raise DataError
    | Some k => Return (find (fun q => Question.id q =? k) (questions s))
    end).

(** Modelled from the spec: [Question.delete] of [models.py] (section 3:
    deleted via delete), called on what [get] returned; Python's [None] has
    no such attribute. *)
Definition Question_delete (question : option Question.t) : py unit :=
  match question with
  | None => raise AttributeError
  | Some q =>
      fun s =>
        (Return tt,
         Db (filter (fun r => Question.id r <> Question.id q) (questions s))
            (questions_id_seq s) (categories s))
  end.

(** Modelled from the spec: the constructor and [Question.insert] of
    [models.py] (section 3: id generated, question and answer text,
    category and difficulty integer). The row gets the next value of the
    sequence; a refused value or a taken key leaves the table as it was. *)
Definition Question_insert (question answer category difficulty : pyval)
    : py Z :=
  fun s =>
    match pg_text_store question with
    | Raise e => (Raise e, s)
    | Return q =>
    match pg_text_store answer with
    | Raise e => (Raise e, s)
    | Return a =>
    match pg_integer_store category with
    | Raise e => (Raise e, s)
    | Return c =>
    match pg_integer_store difficulty with
    | Raise e => (Raise e, s)
    | Return d =>
        let i := questions_id_seq s + 1 in
        if existsb (fun r => Question.id r =? i) (questions s)
        then (Raise IntegrityError, s)
        else (Return i,
              Db (questions s ++ [Question.Build i q a c d]) i (categories s))
    end end end end.

(** [Question.query.filter(Question.question.ilike(pattern)).all()] *)
Definition Question_query_filter_ilike_all (pattern : string)
    : py (list Question.t) :=
  query (fun s =>
    if dangling_escape (chars pattern) then Raise DataError
    else Return (filter (fun q => pg_ilike pattern (Question.question q) = true)
                        (questions s))).

(** [Question.query.filter(Question.category == value).all()] for a
    value given as text *)
Definition Question_query_filter_category_all (value : string)
    : py (list Question.t) :=
  query (fun s =>
    match pg_int4in value with
    | None => Raise DataError
    | Some k =>
        Return (filter (fun q => Question.category q = Some k) (questions s))
    end).

(** What [column.notin_(v)] binds: the elements [v] yields when iterated. *)
Definition sa_in_elements (v : pyval) : outcome (list pyval) :=
  match v with
  | PList l => Return l
  | PStr s => Return (map (fun c => PStr (String c EmptyString)) (chars s))
  | PDict d =>
      Return (map (fun kv => match fst kv with
                             | KStr k => PStr k
                             | KInt k => PInt k
                             end) d)
  | PNone | PBool _ | PInt _ => Raise TypeError
  end.

Fixpoint pg_integer_operands (l : list pyval) : outcome (list (option Z)) :=
  match l with
  | [] => Return []
  | v :: l' =>
      match pg_integer_operand v with
      | Raise e => Raise e
      | Return o =>
          match pg_integer_operands l' with
          | Raise e => Raise e
          | Return os => Return (o :: os)
          end
      end
  end.

(** [x NOT IN (os)] is true: [x] differs from every operand and none is NULL. *)
Definition sql_not_in (x : Z) (os : list (option Z)) : bool :=
  forallb (fun o => match o with
                    | Some y => negb (x =? y)
                    | None => false
                    end) os.

(** [Question.query.filter(Question.id.notin_(previous)).all()] and
    [Question.query.filter(Question.id.notin_(previous),
                           Question.category == category_id).all()] *)
Definition Question_query_filter_notin_all (previous : pyval)
    (category_id : option Z) : py (list Question.t) :=
  query (fun s =>
    match sa_in_elements previous with
    | Raise e => Raise e
    | Return elements =>
        match pg_integer_operands elements with
        | Raise e => Raise e
        | Return os =>
            match category_id with
            | None =>
                Return (filter (fun q => sql_not_in (Question.id q) os = true)
                               (questions s))
            | Some c =>
                Return (filter (fun q => sql_not_in (Question.id q) os = true /\
                                         Question.category q = Some c)
                               (questions s))
            end
        end
    end).

(** ** Flask: the request and the dispatch of a view *)

(** The body of a request as [request.get_json()] sees it. *)
Inductive payload :=
| NoJson                 (* not a JSON request: [get_json] returns [None] *)
| BadJson                (* JSON that does not parse: [get_json] aborts with 400 *)
| Json (v : pyval).

Definition get_json (p : payload) : py pyval :=
  match p with
  | NoJson => ret PNone
  | BadJson => abort 400
  | Json v => ret v
  end.

(** [request.args.get(key, default, type=int)]: the first value of [key],
    the default when the key is absent or its value is not an integer. *)
Definition args_get_int (args : list (string * string)) (key : string)
    (default : Z) : Z :=
  match find (fun kv => String.eqb (fst kv) key) args with
  | None => default
  | Some kv =>
      match py_int_of_string (snd kv) with
      | Some z => z
      | None => default
      end
  end.

Definition jsonify (d : dict) : pyval := PDict d.

Definition error_body (code : Z) (message : string) : pyval :=
  jsonify [(KStr "success", PBool false);
           (KStr "error", PInt code);
           (KStr "message", PStr message)].

(** The four [errorhandler]s. *)
Definition bad_request : Z * pyval := (400, error_body 400 "Bad Request").
Definition not_found : Z * pyval := (404, error_body 404 "Not Found").
Definition unprocessable_entity : Z * pyval :=
  (422, error_body 422 "Unprocessable Entity").
Definition internal_server_error : Z * pyval :=
  (500, error_body 500 "Internal Server Error").

(** Running a view: its value is sent with status 200; an [abort] goes to
    the handler registered for its code; every other exception is an
    internal server error. A code without a handler gets the framework's
    own page, which no view asks for. *)
Definition respond (r : outcome pyval) : Z * pyval :=
  match r with
  | Return v => (200, v)
  | Raise (HTTPException c) =>
      if c =? 400 then bad_request
      else if c =? 404 then not_found
      else if c =? 422 then unprocessable_entity
      else if c =? 500 then internal_server_error
      else (c, PNone)
  | Raise _ => internal_server_error
  end.

Definition dispatch (view : py pyval) (s : db) : (Z * pyval) * db :=
  let '(r, s') := view s in (respond r, s').

(** ** The views of [create_app] *)

Definition categories_dict (categories : list Category.t) : pyval :=
  PDict (dict_comprehension (fun c => KInt (Category.id c))
                            (fun c => PStr (Category.type c)) categories).

Definition get_categories : py pyval :=
  let* categories := Category_query_order_by_id_all in
  if (length categories =? 0)%nat then abort 404
  else
    ret (jsonify [(KStr "success", PBool true);
                  (KStr "categories", categories_dict categories)]).

Definition get_questions (args : list (string * string)) : py pyval :=
  let limit := args_get_int args "limit" 10 in
  let page := args_get_int args "page" 1 in
  let* questions :=
    Question_query_order_by_id_limit_offset_all limit ((page - 1) * limit) in
  let current_questions := format <$> questions in
  let* categories := Category_query_order_by_id_all in
  if (length current_questions =? 0)%nat then abort 404
  else
    let* total := Question_query_count in
    ret (jsonify [(KStr "success", PBool true);
                  (KStr "questions", PList current_questions);
                  (KStr "total_questions", PInt total);
                  (KStr "categories", categories_dict categories);
                  (KStr "current_category", PNone)]).

Definition delete_question (question_id : string) : py pyval :=
  try_except
    (let* question := Question_query_get question_id in
     let* _ := Question_delete question in
     ret (jsonify [(KStr "success", PBool true);
                   (KStr "deleted", PStr question_id)]))
    (fun e =>
       match e with
       | DataError => Some (abort 400)
       | AttributeError => Some (abort 404)
       | _ => None
       end).

Definition create_question (request_json : payload) : py pyval :=
  try_except
    (let* body := get_json request_json in
     let* new_question := lift (subscript body "question") in
     let* new_answer := lift (subscript body "answer") in
     let* new_difficulty := lift (subscript body "difficulty") in
     let* new_category := lift (subscript body "category") in
     let* created :=
       Question_insert new_question new_answer new_category new_difficulty in
     ret (jsonify [(KStr "success", PBool true);
                   (KStr "created", PInt created)]))
    (fun e =>
       match e with
       | KeyError => Some (abort 400)
       | TypeError => Some (abort 400)
       | _ => None
       end).

Definition search_question (request_json : payload) : py pyval :=
  try_except
    (let* body := get_json request_json in
     let* query := lift (subscript body "query") in
     let* questions :=
       Question_query_filter_ilike_all ("%" ++ py_str query ++ "%")%string in
     ret (jsonify [(KStr "success", PBool true);
                   (KStr "questions", PList (format <$> questions));
                   (KStr "total_questions", PInt (Z.of_nat (length questions)));
                   (KStr "current_category", PNone)]))
    (fun e =>
       match e with
       | KeyError => Some (abort 400)
       | TypeError => Some (abort 400)
       | _ => None
       end).

Definition get_questions_by_category (category_id : string) : py pyval :=
  try_except
    (let* questions := Question_query_filter_category_all category_id in
     ret (jsonify [(KStr "success", PBool true);
                   (KStr "questions", PList (format <$> questions));
                   (KStr "total_questions", PInt (Z.of_nat (length questions)));
                   (KStr "current_category", PStr category_id)]))
    (fun e =>
       match e with
       | DataError => Some (abort 400)
       | _ => None
       end).

(** [draw] is what the random generator yields in this request. *)
Definition play_quiz (draw : nat) (request_json : payload) : py pyval :=
  try_except
    (let* body := get_json request_json in
     let* previous_questions := lift (subscript body "previous_questions") in
     let* quiz_category := lift (subscript body "quiz_category") in
     let* id := lift (dot_get quiz_category "id") in
     let* category_id := lift (py_int id) in
     let* questions :=
       if negb (category_id =? 0)
       then Question_query_filter_notin_all previous_questions (Some category_id)
       else Question_query_filter_notin_all previous_questions None in
     let* index := lift (randrange draw (length questions)) in
     let* chosen := lift (getitem questions index) in
     let new_question := format chosen in
     ret (jsonify [(KStr "success", PBool true);
                   (KStr "question", new_question)]))
    (fun e =>
       match e with
       | KeyError => Some (abort 400)
       | TypeError => Some (abort 400)
       | _ => None
       end).

(** A computation that leaves the database as it found it. *)
Definition reads_only {A} (m : py A) : Prop := forall s, snd (m s) = s.

(** ** What the specification says, in its own words *)

(** The primary keys: no two rows of a table share an id, and the sequence
    is not behind any id it handed out. *)
Record db_ok (s : db) : Prop := {
  question_ids_unique : NoDup (Question.id <$> questions s);
  question_ids_generated :
    Forall (fun q => Question.id q <= questions_id_seq s) (questions s);
  category_ids_unique : NoDup (Category.id <$> categories s)
}.


Definition categories_by_id (s : db) (sorted : list Category.t) : Prop :=
  sorted ≡ₚ categories s /\ StronglySorted by_category_id sorted.

(** The mapping from category id to type, in the order of the rows. *)
Definition category_mapping (rows : list Category.t) : pyval :=
  PDict ((fun c => (KInt (Category.id c), PStr (Category.type c))) <$> rows).

(** The page GET /questions selects, as the engine answers the query. *)
Definition selected_page (args : list (string * string)) (s : db)
    : outcome (list Question.t) :=
  let limit := args_get_int args "limit" 10 in
  let page := args_get_int args "page" 1 in
  fst (Question_query_order_by_id_limit_offset_all limit ((page - 1) * limit) s).

(** The body of a successful GET /questions. *)
Definition questions_page_body (rows : list Question.t) (total : nat)
    (mapping : pyval) : pyval :=
  jsonify [(KStr "success", PBool true);
           (KStr "questions", PList (format <$> rows));
           (KStr "total_questions", PInt (Z.of_nat total));
           (KStr "categories", mapping);
           (KStr "current_category", PNone)].


(** Section 4.5: the text contains the query as a substring, letter case
    apart. *)
Fixpoint prefix_nocase (p t : list ascii) : bool :=
  match p, t with
  | [], _ => true
  | _ :: _, [] => false
  | c :: p', a :: t' => eq_nocase c a && prefix_nocase p' t'
  end.

Fixpoint infix_nocase (p t : list ascii) : bool :=
  prefix_nocase p t ||
  match t with
  | [] => false
  | _ :: t' => infix_nocase p t'
  end.

Definition contains_nocase (needle : string) (haystack : option string)
    : bool :=
  match haystack with
  | Some t => infix_nocase (chars needle) (chars t)
  | None => false
  end.

Definition search_body (rows : list Question.t) : pyval :=
  jsonify [(KStr "success", PBool true);
           (KStr "questions", PList (format <$> rows));
           (KStr "total_questions", PInt (Z.of_nat (length rows)));
           (KStr "current_category", PNone)].

Definition search_question_contract (query : string) (s : db) : Prop :=
  dispatch (search_question (Json (PDict [(KStr "query", PStr query)]))) s =
    ((200, search_body
             (filter (fun q => contains_nocase query (Question.question q) = true)
                     (questions s))), s).

(** The characters that are not literal in a LIKE pattern. *)
Definition is_wildcard (c : ascii) : bool :=
  Ascii.eqb c "%" || Ascii.eqb c "_" || Ascii.eqb c "\".

(** Section 4.7: a well-formed body of POST /quizzes, and the candidate set:
    the questions not seen yet, of the given category unless it is 0. *)
Definition quiz_body (previous : list Z) (category_id : Z) (body : pyval)
    : Prop :=
  exists d c,
    body = PDict d /\
    dict_get (KStr "previous_questions") d = Some (PList (PInt <$> previous)) /\
    dict_get (KStr "quiz_category") d = Some (PDict c) /\
    dict_get (KStr "id") c = Some (PInt category_id).

Definition candidates (previous : list Z) (category_id : Z) (s : db)
    : list Question.t :=
  filter (fun q => (Question.id q ∉ previous) /\
                   (category_id <> 0 ->
                    Question.category q = Some category_id))
         (questions s).

Definition quiz_answer (q : Question.t) : Z * pyval :=
  (200, jsonify [(KStr "success", PBool true); (KStr "question", format q)]).

(** ** Sample state *)

Definition sample_questions : list Question.t :=
  [Question.Build 5 (Some "Who wrote Dune?") (Some "Frank Herbert")
     (Some 2) (Some 3);
   Question.Build 1 (Some "What is the title of the 1990 film?")
     (Some "Edward") (Some 1) (Some 2);
   Question.Build 2 (Some "abc") (Some "def") (Some 2) (Some 1)].

Definition sample_categories : list Category.t :=
  [Category.Build 2 "Art"; Category.Build 1 "Science"].

Definition sample_db : db := Db sample_questions 5 sample_categories.


Definition sample_quiz_body (previous : list Z) (category_id : pyval) : pyval :=
  PDict [(KStr "previous_questions", PList (PInt <$> previous));
         (KStr "quiz_category",
          PDict [(KStr "type", PStr "Science"); (KStr "id", category_id)])].

Definition sample_new_question (difficulty : pyval) : pyval :=
  PDict [(KStr "question", PStr "Who painted the Mona Lisa?");
         (KStr "answer", PStr "Leonardo");
         (KStr "difficulty", difficulty);
         (KStr "category", PInt 2)].

(** ** The URL map and sequences of requests *)

(** The [app.route] declarations. *)
Inductive request :=
| GET_categories
| GET_questions (args : list (string * string))
| DELETE_questions_id (question_id : string)
| POST_questions (request_json : payload)
| POST_questions_search (request_json : payload)
| GET_categories_id_questions (category_id : string)
| POST_quizzes (request_json : payload).

Definition view_function (draw : nat) (r : request) : py pyval :=
  match r with
  | GET_categories => get_categories
  | GET_questions args => get_questions args
  | DELETE_questions_id question_id => delete_question question_id
  | POST_questions request_json => create_question request_json
  | POST_questions_search request_json => search_question request_json
  | GET_categories_id_questions category_id =>
      get_questions_by_category category_id
  | POST_quizzes request_json => play_quiz draw request_json
  end.

(** One request served on the state [s]. *)
Definition app (draw : nat) (r : request) (s : db) : (Z * pyval) * db :=
  dispatch (view_function draw r) s.

(** The requests whose view calls [insert] or [delete]. *)
Definition writes (r : request) : bool :=
  match r with
  | DELETE_questions_id _ | POST_questions _ => true
  | _ => false
  end.

(** The state after a sequence of requests, each with its draw. *)
Definition serve (trace : list (nat * request)) (s : db) : db :=
  fold_left (fun s dr => snd (app (fst dr) (snd dr) s)) trace s.

(** An exception that is not an [abort] with a code other than 400, 404. *)
Definition expected (e : exn) : Prop :=
  match e with
  | HTTPException c => c = 400 \/ c = 404
  | _ => True
  end.

(** Every exception the computation raises satisfies [P]. *)
Definition raises_only (P : exn -> Prop) {A} (m : py A) : Prop :=
  forall s e s', m s = (Raise e, s') -> P e.

(** ** Bodies and query strings used in the statements *)

Definition created_body (i : Z) : pyval :=
  jsonify [(KStr "success", PBool true); (KStr "created", PInt i)].

Definition deleted_body (question_id : string) : pyval :=
  jsonify [(KStr "success", PBool true); (KStr "deleted", PStr question_id)].


(** The query string [?limit=<limit>&page=<page>]. *)
Definition page_args (limit page : Z) : list (string * string) :=
  [("limit", decimal limit); ("page", decimal page)].

(** The value of a run of decimal digits read after [acc]. *)
Fixpoint uint_value (acc : Z) (d : Decimal.uint) : Z :=
  match d with
  | Decimal.Nil => acc
  | Decimal.D0 d => uint_value (10 * acc + 0) d
  | Decimal.D1 d => uint_value (10 * acc + 1) d
  | Decimal.D2 d => uint_value (10 * acc + 2) d
  | Decimal.D3 d => uint_value (10 * acc + 3) d
  | Decimal.D4 d => uint_value (10 * acc + 4) d
  | Decimal.D5 d => uint_value (10 * acc + 5) d
  | Decimal.D6 d => uint_value (10 * acc + 6) d
  | Decimal.D7 d => uint_value (10 * acc + 7) d
  | Decimal.D8 d => uint_value (10 * acc + 8) d
  | Decimal.D9 d => uint_value (10 * acc + 9) d
  end.

(** * Properties *)

(** ** Computations that only read *)

Create HintDb reads_only.

Lemma reads_only_ret {A} (a : A) : reads_only (ret a).
Proof. intros s. reflexivity. Qed.

Lemma reads_only_raise {A} (e : exn) : reads_only (@raise A e).
Proof. intros s. reflexivity. Qed.

Lemma reads_only_abort {A} (c : Z) : reads_only (@abort A c).
Proof. intros s. reflexivity. Qed.

Lemma reads_only_lift {A} (o : outcome A) : reads_only (lift o).
Proof. intros s. reflexivity. Qed.

Lemma reads_only_query {A} (f : db -> outcome A) : reads_only (query f).
Proof. intros s. reflexivity. Qed.

Lemma reads_only_filter_notin previous category_id :
  reads_only (Question_query_filter_notin_all previous category_id).
Proof. apply reads_only_query. Qed.

Lemma reads_only_get_json p : reads_only (get_json p).
Proof. destruct p; intros s; reflexivity. Qed.

Lemma reads_only_if {A} (b : bool) (m1 m2 : py A) :
  reads_only m1 -> reads_only m2 -> reads_only (if b then m1 else m2).
Proof. now destruct b. Qed.

Lemma reads_only_bind {A B} (m : py A) (k : A -> py B) :
  reads_only m -> (forall a, reads_only (k a)) -> reads_only (bind m k).
Proof.
  intros Hm Hk s. unfold bind. specialize (Hm s).
  destruct (m s) as [[a|e] s']; simpl in *; subst s'.
  - apply Hk.
  - reflexivity.
Qed.

Lemma reads_only_try_except {A} (body : py A) handler :
  reads_only body ->
  (forall e h, handler e = Some h -> reads_only h) ->
  reads_only (try_except body handler).
Proof.
  intros Hb Hh s. unfold try_except. specialize (Hb s).
  destruct (body s) as [[a|e] s']; simpl in *; subst s'; [reflexivity|].
  destruct (handler e) as [h|] eqn:E; [|reflexivity].
  now apply (Hh e h).
Qed.

#[global] Hint Resolve reads_only_ret reads_only_raise reads_only_abort
  reads_only_lift reads_only_query reads_only_get_json reads_only_if
  reads_only_filter_notin : reads_only.

(** ** Orders *)

#[global] Instance by_question_id_trans : Transitive by_question_id.
Proof. intros a b c. unfold by_question_id. lia. Qed.

#[global] Instance by_question_id_total : Total by_question_id.
Proof. intros a b. unfold by_question_id. lia. Qed.

#[global] Instance by_category_id_trans : Transitive by_category_id.
Proof. intros a b c. unfold by_category_id. lia. Qed.

#[global] Instance by_category_id_total : Total by_category_id.
Proof. intros a b. unfold by_category_id. lia. Qed.


Lemma order_by_category_id s :
  categories_by_id s (merge_sort by_category_id (categories s)).
Proof.
  split.
  - apply merge_sort_Permutation.
  - apply StronglySorted_merge_sort; apply _.
Qed.

(** ** Dictionaries *)

Lemma pykey_eqb_eq a b : pykey_eqb a b = true <-> a = b.
Proof.
  destruct a, b; simpl; try (split; congruence).
  - rewrite String.eqb_eq. split; congruence.
  - rewrite Z.eqb_eq. split; congruence.
Qed.

Lemma dict_set_fresh k v d :
  k ∉ d.*1 -> dict_set k v d = d ++ [(k, v)].
Proof.
  induction d as [|[k' v'] d IH]; simpl; intros Hk; [reflexivity|].
  rewrite not_elem_of_cons in Hk. destruct Hk as [Hne Hk].
  destruct (pykey_eqb k k') eqn:E.
  - apply pykey_eqb_eq in E. contradiction.
  - now rewrite IH.
Qed.

Lemma fold_dict_set_nodup {A} (key : A -> pykey) (value : A -> pyval) xs acc :
  NoDup (acc.*1 ++ (key <$> xs)) ->
  fold_left (fun d x => dict_set (key x) (value x) d) xs acc =
  acc ++ ((fun x => (key x, value x)) <$> xs).
Proof.
  revert acc. induction xs as [|x xs IH]; simpl; intros acc Hnd.
  - now rewrite app_nil_r.
  - rewrite dict_set_fresh.
    + rewrite IH.
      * now rewrite <- app_assoc.
      * rewrite fmap_app. simpl. now rewrite <- app_assoc.
    + apply NoDup_app in Hnd as (_ & Hdisj & _).
      intros Hin. apply (Hdisj _ Hin). left.
Qed.

Lemma dict_comprehension_nodup {A} (key : A -> pykey) (value : A -> pyval) xs :
  NoDup (key <$> xs) ->
  dict_comprehension key value xs = (fun x => (key x, value x)) <$> xs.
Proof.
  intros Hnd. unfold dict_comprehension.
  now rewrite fold_dict_set_nodup.
Qed.

Lemma categories_dict_nodup rows :
  NoDup (Category.id <$> rows) ->
  categories_dict rows = category_mapping rows.
Proof.
  intros Hnd. unfold categories_dict, category_mapping.
  rewrite dict_comprehension_nodup; [reflexivity|].
  rewrite (list_fmap_compose Category.id KInt).
  apply NoDup_fmap_2; [|exact Hnd].
  intros x y Hxy. congruence.
Qed.

Lemma NoDup_ids_perm {A} (f : A -> Z) l l' :
  l ≡ₚ l' -> NoDup (f <$> l') -> NoDup (f <$> l).
Proof. intros Hp. now rewrite Hp. Qed.

(** ** GET /categories *)

(** C8: GET /categories answers 404 exactly when the category table has no
    row; otherwise it answers 200 with the mapping from each category id to
    its type, over all the categories, in the order of the ids. *)
Theorem get_categories_not_found_iff_empty (s : db) :
  NoDup (Category.id <$> categories s) ->
  (dispatch get_categories s = (not_found, s) <-> categories s = []) /\
  (categories s <> [] ->
   exists sorted,
     categories_by_id s sorted /\
     dispatch get_categories s =
       ((200, jsonify [(KStr "success", PBool true);
                       (KStr "categories", category_mapping sorted)]), s)).
Proof.
  intros Hnd.
  pose proof (order_by_category_id s) as [Hperm Hsorted].
  assert (Hlen : length (merge_sort by_category_id (categories s))
                 = length (categories s))
    by (now apply Permutation_length).
  assert (Hrun : categories s <> [] ->
     dispatch get_categories s =
       ((200, jsonify [(KStr "success", PBool true);
                       (KStr "categories",
                        category_mapping
                          (merge_sort by_category_id (categories s)))]), s)).
  { intros Hne. unfold dispatch, get_categories, bind,
      Category_query_order_by_id_all, query. simpl.
    destruct (categories s) as [|c cs] eqn:E; [congruence|].
    rewrite Hlen. simpl.
    rewrite categories_dict_nodup; [reflexivity|].
    eapply NoDup_ids_perm; eauto. }
  split; [split|].
  - intros Hnf. destruct (categories s) as [|c cs] eqn:E; [reflexivity|].
    rewrite Hrun in Hnf by congruence. discriminate.
  - intros Hnil. unfold dispatch, get_categories, bind,
      Category_query_order_by_id_all, query. simpl.
    rewrite Hlen, Hnil. reflexivity.
  - intros Hne. exists (merge_sort by_category_id (categories s)).
    split; [split; assumption|]. now apply Hrun.
Qed.

Lemma get_categories_not_found_iff_empty_witness :
  NoDup (Category.id <$> categories sample_db) /\
  exists sorted,
    categories_by_id sample_db sorted /\
    dispatch get_categories sample_db =
      ((200, jsonify [(KStr "success", PBool true);
                      (KStr "categories", category_mapping sorted)]),
       sample_db).
Proof.
  assert (Hnd : NoDup (Category.id <$> categories sample_db)).
  { apply (bool_decide_unpack _). vm_compute. exact I. }
  split; [exact Hnd|].
  apply (get_categories_not_found_iff_empty sample_db Hnd).
  discriminate.
Defined.

(** ** GET /questions *)

Lemma get_questions_run args s :
  dispatch (get_questions args) s =
  (match selected_page args s with
   | Raise e => respond (Raise e)
   | Return rows =>
       if (length rows =? 0)%nat then not_found
       else (200, questions_page_body rows (length (questions s))
                    (categories_dict (merge_sort by_category_id (categories s))))
   end, s).
Proof.
  unfold dispatch, get_questions, selected_page, bind,
    Question_query_order_by_id_limit_offset_all,
    Category_query_order_by_id_all, Question_query_count, query, ret.
  simpl.
  destruct (pg_limit_offset _ _ _) as [rows|e]; simpl; [|reflexivity].
  rewrite length_fmap.
  destruct (length rows =? 0)%nat; reflexivity.
Qed.

Lemma selected_page_valid args s :
  let limit := args_get_int args "limit" 10 in
  let page := args_get_int args "page" 1 in
  0 <= limit <= int8_max ->
  0 <= (page - 1) * limit <= int8_max ->
  selected_page args s =
    Return (take (Z.to_nat limit)
              (drop (Z.to_nat ((page - 1) * limit))
                 (merge_sort by_question_id (questions s)))).
Proof.
  intros limit page Hl Ho.
  unfold selected_page, Question_query_order_by_id_limit_offset_all, query,
    pg_limit_offset. simpl. fold limit page.
  replace (limit <? 0) with false by (symmetry; apply Z.ltb_ge; lia).
  replace (int8_max <? limit) with false by (symmetry; apply Z.ltb_ge; lia).
  replace ((page - 1) * limit <? 0) with false
    by (symmetry; apply Z.ltb_ge; lia).
  replace (int8_max <? (page - 1) * limit) with false
    by (symmetry; apply Z.ltb_ge; lia).
  reflexivity.
Qed.





Lemma selected_page_raises args s e :
  selected_page args s = Raise e -> e = DataError.
Proof.
  unfold selected_page, Question_query_order_by_id_limit_offset_all, query,
    pg_limit_offset. simpl.
  destruct (_ || _); congruence.
Qed.




(** ** GET /categories/<category_id>/questions *)

(** C7: when the path value reads as an integer of the engine, the answer
    holds exactly the questions of that category, their number, and the
    path value as current category; when it does not, the answer is 400. *)
Theorem get_questions_by_category_filters (category_id : string) (s : db) :
  match pg_int4in category_id with
  | Some k =>
      let rows := filter (fun q => Question.category q = Some k) (questions s) in
      (forall q, q ∈ rows <-> q ∈ questions s /\ Question.category q = Some k) /\
      dispatch (get_questions_by_category category_id) s =
        ((200, jsonify [(KStr "success", PBool true);
                        (KStr "questions", PList (format <$> rows));
                        (KStr "total_questions", PInt (Z.of_nat (length rows)));
                        (KStr "current_category", PStr category_id)]), s)
  | None =>
      dispatch (get_questions_by_category category_id) s = (bad_request, s)
  end.
Proof.
  unfold dispatch, get_questions_by_category, try_except, bind,
    Question_query_filter_category_all, query.
  destruct (pg_int4in category_id) as [k|]; simpl; [|reflexivity].
  split; [|reflexivity].
  intros q. rewrite list_elem_of_filter. tauto.
Qed.

(** ** DELETE /questions/<question_id> *)

Lemma delete_question_run question_id s :
  dispatch (delete_question question_id) s =
  match pg_int4in question_id with
  | None => (bad_request, s)
  | Some k =>
      match find (fun q => Question.id q =? k) (questions s) with
      | None => (not_found, s)
      | Some q =>
          ((200, jsonify [(KStr "success", PBool true);
                          (KStr "deleted", PStr question_id)]),
           Db (filter (fun r => Question.id r <> Question.id q) (questions s))
              (questions_id_seq s) (categories s))
      end
  end.
Proof.
  unfold dispatch, delete_question, try_except, bind, Question_query_get,
    query.
  destruct (pg_int4in question_id) as [k|]; simpl; [|reflexivity].
  destruct (find _ (questions s)); reflexivity.
Qed.

Lemma find_id_Some k l :
  k ∈ Question.id <$> l ->
  exists q, find (fun q => Question.id q =? k) l = Some q /\
            Question.id q = k /\ q ∈ l.
Proof.
  induction l as [|r l IH]; simpl; intros Hin.
  - inversion Hin.
  - destruct (Question.id r =? k) eqn:E.
    + apply Z.eqb_eq in E. exists r. repeat split; [exact E | left].
    + apply Z.eqb_neq in E. apply elem_of_cons in Hin as [Hk|Hin];
        [congruence|].
      destruct (IH Hin) as (q & Hf & Hid & Hq).
      exists q. repeat split; [exact Hf | exact Hid | now right].
Qed.

Lemma find_id_None k l :
  k ∉ Question.id <$> l -> find (fun q => Question.id q =? k) l = None.
Proof.
  induction l as [|r l IH]; simpl; intros Hin; [reflexivity|].
  rewrite not_elem_of_cons in Hin. destruct Hin as [Hne Hin].
  destruct (Question.id r =? k) eqn:E.
  - apply Z.eqb_eq in E. congruence.
  - now apply IH.
Qed.

Lemma filter_id_absent k (l : list Question.t) :
  k ∉ Question.id <$> l -> filter (fun r => Question.id r <> k) l = l.
Proof.
  induction l as [|r l IH]; simpl; intros Hin; [reflexivity|].
  rewrite not_elem_of_cons in Hin. destruct Hin as [Hne Hin].
  rewrite filter_cons. destruct (decide (Question.id r <> k)) as [_|Heq].
  - now rewrite IH.
  - exfalso. apply Heq. congruence.
Qed.

Lemma length_filter_id k (l : list Question.t) :
  NoDup (Question.id <$> l) -> k ∈ Question.id <$> l ->
  (length (filter (fun r => Question.id r <> k) l) + 1 = length l)%nat.
Proof.
  induction l as [|r l IH]; simpl; intros Hnd Hin.
  - inversion Hin.
  - apply NoDup_cons in Hnd as [Hr Hnd].
    rewrite filter_cons. destruct (decide (Question.id r <> k)) as [Hne|Heq].
    + apply elem_of_cons in Hin as [Hk|Hin]; [congruence|].
      simpl. rewrite IH by assumption. reflexivity.
    + assert (Question.id r = k) as <- by (destruct (decide (Question.id r = k)); tauto).
      rewrite filter_id_absent by assumption. lia.
Qed.

Lemma id_not_in_filter k (l : list Question.t) :
  k ∉ Question.id <$> filter (fun r => Question.id r <> k) l.
Proof.
  intros Hin. apply list_elem_of_fmap in Hin as (q & Hk & Hq).
  apply list_elem_of_filter in Hq as [Hne _]. congruence.
Qed.

(** C5: a path value that the engine does not read as an integer gives 400;
    one that it reads but that is the id of no row gives 404; otherwise the
    row with that id is deleted, the count drops by exactly one, the answer
    carries the path value as it was received, and deleting the same id
    again gives 404. *)
Theorem delete_question_outcomes (question_id : string) (s : db) :
  NoDup (Question.id <$> questions s) ->
  match pg_int4in question_id with
  | None => dispatch (delete_question question_id) s = (bad_request, s)
  | Some k =>
      if decide (k ∈ Question.id <$> questions s) then
        exists s',
          dispatch (delete_question question_id) s =
            ((200, jsonify [(KStr "success", PBool true);
                            (KStr "deleted", PStr question_id)]), s') /\
          (forall q, q ∈ questions s' <-> q ∈ questions s /\ Question.id q <> k) /\
          (length (questions s') + 1 = length (questions s))%nat /\
          categories s' = categories s /\
          dispatch (delete_question question_id) s' = (not_found, s')
      else dispatch (delete_question question_id) s = (not_found, s)
  end.
Proof.
  intros Hnd. rewrite delete_question_run.
  destruct (pg_int4in question_id) as [k|] eqn:Hk; [|reflexivity].
  destruct (decide (k ∈ Question.id <$> questions s)) as [Hin|Hout].
  - destruct (find_id_Some k _ Hin) as (q & Hf & Hid & Hq).
    rewrite Hf, Hid.
    eexists. split; [reflexivity|]. simpl.
    split; [|split; [|split]].
    + intros r. rewrite list_elem_of_filter. tauto.
    + now apply length_filter_id.
    + reflexivity.
    + rewrite delete_question_run, Hk. simpl.
      rewrite find_id_None by apply id_not_in_filter. reflexivity.
  - now rewrite find_id_None.
Qed.

Lemma delete_question_outcomes_witness :
  exists s',
    dispatch (delete_question "5") sample_db =
      ((200, jsonify [(KStr "success", PBool true);
                      (KStr "deleted", PStr "5")]), s') /\
    (length (questions s') + 1 = length (questions sample_db))%nat /\
    dispatch (delete_question "5") s' = (not_found, s').
Proof.
  assert (Hnd : NoDup (Question.id <$> questions sample_db))
    by (apply (bool_decide_unpack _); vm_compute; exact I).
  pose proof (delete_question_outcomes "5" sample_db Hnd) as H.
  change (pg_int4in "5") with (Some 5) in H.
  destruct (decide (5 ∈ Question.id <$> questions sample_db)) as [_|Hout].
  - destruct H as (s' & H1 & _ & H2 & _ & H3). exists s'. auto.
  - exfalso. apply Hout. vm_compute. left.
Defined.

(** ** POST /questions *)

Lemma create_question_run d s :
  dispatch (create_question (Json (PDict d))) s =
  match dict_get (KStr "question") d, dict_get (KStr "answer") d,
        dict_get (KStr "difficulty") d, dict_get (KStr "category") d with
  | Some vq, Some va, Some vd, Some vc =>
      let '(r, s') := Question_insert vq va vc vd s in
      (respond (match r with
                | Return i => Return (jsonify [(KStr "success", PBool true);
                                               (KStr "created", PInt i)])
                | Raise e =>
                    match e with
                    | KeyError | TypeError => Raise (HTTPException 400)
                    | _ => Raise e
                    end
                end), s')
  | _, _, _, _ => (bad_request, s)
  end.
Proof.
  unfold dispatch, create_question, try_except, bind, lift, get_json, ret,
    subscript.
  destruct (dict_get (KStr "question") d); [|reflexivity].
  destruct (dict_get (KStr "answer") d); [|reflexivity].
  destruct (dict_get (KStr "difficulty") d); [|reflexivity].
  destruct (dict_get (KStr "category") d); [|reflexivity].
  destruct (Question_insert _ _ _ _ s) as [[i|e] s']; [reflexivity|].
  destruct e; reflexivity.
Qed.

Lemma Question_insert_raises vq va vc vd s e s' :
  Question_insert vq va vc vd s = (Raise e, s') ->
  s' = s /\ (e = DataError \/ e = ProgrammingError \/ e = IntegrityError).
Proof.
  unfold Question_insert.
  destruct vq, va, vc, vd; simpl;
    repeat match goal with
           | |- context [in_int4 ?z] => destruct (in_int4 z)
           | |- context [pg_int4in ?z] => destruct (pg_int4in z)
           | |- context [existsb ?f ?l] => destruct (existsb f l)
           end;
    intros H; inversion H; subst; auto.
Qed.



(** A body that lacks one of the four fields is answered 400. *)
Lemma create_question_missing_field d s :
  dict_get (KStr "question") d = None \/ dict_get (KStr "answer") d = None \/
  dict_get (KStr "difficulty") d = None \/ dict_get (KStr "category") d = None ->
  dispatch (create_question (Json (PDict d))) s = (bad_request, s).
Proof.
  intros H. rewrite create_question_run.
  destruct (dict_get (KStr "question") d); [|reflexivity].
  destruct (dict_get (KStr "answer") d); [|reflexivity].
  destruct (dict_get (KStr "difficulty") d); [|reflexivity].
  destruct (dict_get (KStr "category") d); [|reflexivity].
  destruct H as [H|[H|[H|H]]]; discriminate.
Qed.

(** No row is inserted on an error path. *)
Lemma create_question_error_unchanged request_json s :
  fst (fst (dispatch (create_question request_json) s)) <> 200 ->
  snd (dispatch (create_question request_json) s) = s.
Proof.
  destruct request_json as [| |body]; try reflexivity.
  destruct body; try reflexivity.
  rewrite create_question_run.
  destruct (dict_get (KStr "question") d); [|reflexivity].
  destruct (dict_get (KStr "answer") d); [|reflexivity].
  destruct (dict_get (KStr "difficulty") d); [|reflexivity].
  destruct (dict_get (KStr "category") d); [|reflexivity].
  destruct (Question_insert _ _ _ _ s) as [[i|e] s'] eqn:E; simpl.
  - intros H. contradiction.
  - intros _. now apply Question_insert_raises in E as [-> _].
Qed.

(** C6 fails on the code: a body with the four fields, one of which the
    column refuses (difficulty "hard"), is answered 500, not 400; the
    engine's data error is not among the exceptions the view catches. The
    table is left as it was. *)
Theorem create_question_wrong_shape (s : db) :
  dispatch (create_question (Json (sample_new_question (PStr "hard")))) s =
    (internal_server_error, s) /\
  internal_server_error <> bad_request.
Proof. split; [reflexivity | discriminate]. Qed.

(** ** POST /questions/search *)

Lemma chars_append (a b : string) : chars (a ++ b)%string = chars a ++ chars b.
Proof.
  unfold chars. induction a as [|c a IH]; simpl; [reflexivity|].
  now rewrite IH.
Qed.

Lemma like_percent eqc p t :
  like eqc ("%"%char :: p) t =
  like eqc p t ||
  match t with
  | [] => false
  | _ :: t' => like eqc ("%"%char :: p) t'
  end.
Proof. destruct t; reflexivity. Qed.

Lemma like_only_percent eqc t : like eqc ["%"%char] t = true.
Proof.
  induction t as [|a t IH]; [reflexivity|].
  rewrite like_percent, IH. apply orb_true_r.
Qed.

Lemma like_literal eqc c p t :
  is_wildcard c = false ->
  like eqc (c :: p) t =
  match t with
  | [] => false
  | a :: t' => eqc c a && like eqc p t'
  end.
Proof.
  unfold is_wildcard. intros Hc.
  apply orb_false_elim in Hc as [Hc Hb].
  apply orb_false_elim in Hc as [Hp Hu].
  simpl. rewrite Hp, Hu, Hb. reflexivity.
Qed.

Lemma like_literal_prefix p t :
  forallb (fun c => negb (is_wildcard c)) p = true ->
  like eq_nocase (p ++ ["%"%char]) t = prefix_nocase p t.
Proof.
  revert t. induction p as [|c p IH]; intros t Hp.
  - simpl app. rewrite like_only_percent. now destruct t.
  - simpl in Hp. apply andb_prop in Hp as [Hc Hp].
    apply negb_true_iff in Hc.
    change ((c :: p) ++ ["%"%char]) with (c :: (p ++ ["%"%char])).
    rewrite like_literal by assumption.
    destruct t as [|a t]; [reflexivity|].
    simpl. now rewrite IH.
Qed.

Lemma like_literal_infix p t :
  forallb (fun c => negb (is_wildcard c)) p = true ->
  like eq_nocase ("%"%char :: p ++ ["%"%char]) t = infix_nocase p t.
Proof.
  intros Hp. induction t as [|a t IH].
  - rewrite like_percent, like_literal_prefix by assumption.
    simpl. reflexivity.
  - rewrite like_percent, like_literal_prefix, IH by assumption.
    reflexivity.
Qed.

(** A pattern that ends in [%] has no unpaired backslash at its end. *)
Lemma no_dangling_escape p : dangling_escape (p ++ ["%"%char]) = false.
Proof.
  remember (length p) as n eqn:Hn.
  revert p Hn. induction (lt_wf n) as [n _ IH]. intros p Hn.
  destruct p as [|c p]; [reflexivity|].
  simpl. destruct (Ascii.eqb c "\").
  - destruct p as [|e p]; [reflexivity|].
    simpl. eapply (IH (length p)); [|reflexivity]. subst n. simpl. lia.
  - eapply (IH (length p)); [|reflexivity]. subst n. simpl. lia.
Qed.

Lemma search_pattern_ok (v : pyval) :
  dangling_escape (chars ("%" ++ py_str v ++ "%")%string) = false.
Proof.
  rewrite chars_append, chars_append.
  change (chars "%") with ["%"%char].
  rewrite app_assoc. apply no_dangling_escape.
Qed.

Lemma search_question_run d s :
  dispatch (search_question (Json (PDict d))) s =
  match dict_get (KStr "query") d with
  | None => (bad_request, s)
  | Some v =>
      ((200, search_body
               (filter (fun q => pg_ilike ("%" ++ py_str v ++ "%")%string
                                          (Question.question q) = true)
                       (questions s))), s)
  end.
Proof.
  unfold dispatch, search_question, try_except, bind, lift, get_json, ret,
    subscript, Question_query_filter_ilike_all, query.
  destruct (dict_get (KStr "query") d) as [v|]; [|reflexivity].
  rewrite search_pattern_ok. reflexivity.
Qed.

(** For a query without [%], [_] and backslash the view returns exactly the
    questions whose text contains the query, letter case apart. *)
Lemma search_question_literal (query : string) (s : db) :
  forallb (fun c => negb (is_wildcard c)) (chars query) = true ->
  search_question_contract query s.
Proof.
  intros Hq. unfold search_question_contract.
  rewrite search_question_run. simpl dict_get.
  repeat f_equal.
  apply list_filter_iff. intros q.
  unfold pg_ilike, contains_nocase. simpl py_str.
  destruct (Question.question q) as [t|]; [|reflexivity].
  rewrite chars_append, chars_append.
  change (chars "%") with ["%"%char].
  change (["%"%char] ++ chars query ++ ["%"%char])
    with ("%"%char :: chars query ++ ["%"%char]).
  now rewrite like_literal_infix.
Qed.

(** C2 fails on the code: the query is pasted into the ILIKE pattern as it
    is, and for the query [_] the view returns all three sample questions
    although none of them contains an underscore. *)
Theorem search_question_underscore :
  dispatch (search_question (Json (PDict [(KStr "query", PStr "_")])))
    sample_db =
    ((200, search_body sample_questions), sample_db) /\
  filter (fun q => contains_nocase "_" (Question.question q) = true)
         (questions sample_db) = [] /\
  ~ search_question_contract "_" sample_db.
Proof.
  assert (Hrun : dispatch (search_question (Json (PDict [(KStr "query", PStr "_")])))
                   sample_db = ((200, search_body sample_questions), sample_db))
    by (vm_compute; reflexivity).
  assert (Hnone : filter (fun q => contains_nocase "_" (Question.question q) = true)
                    (questions sample_db) = [])
    by (vm_compute; reflexivity).
  split; [exact Hrun|]. split; [exact Hnone|].
  unfold search_question_contract. rewrite Hrun, Hnone. discriminate.
Qed.

(** ** POST /quizzes *)

Lemma pg_integer_operands_ints (previous : list Z) :
  pg_integer_operands (PInt <$> previous) = Return (Some <$> previous).
Proof.
  induction previous as [|x l IH]; [reflexivity|].
  rewrite !fmap_cons. cbn [pg_integer_operands pg_integer_operand].
  now rewrite IH.
Qed.

Lemma sql_not_in_ints x (previous : list Z) :
  sql_not_in x (Some <$> previous) = true <-> x ∉ previous.
Proof.
  unfold sql_not_in. induction previous as [|y l IH].
  - split; [intros _; apply not_elem_of_nil | reflexivity].
  - rewrite fmap_cons. cbn [forallb].
    rewrite andb_true_iff, IH, not_elem_of_cons, negb_true_iff, Z.eqb_neq.
    reflexivity.
Qed.

(** The list the view draws from is the candidate set. *)
Lemma quiz_query_candidates previous category_id s :
  (if negb (category_id =? 0)
   then Question_query_filter_notin_all (PList (PInt <$> previous))
          (Some category_id)
   else Question_query_filter_notin_all (PList (PInt <$> previous)) None) s
  = (Return (candidates previous category_id s), s).
Proof.
  unfold candidates.
  destruct (category_id =? 0) eqn:E; simpl;
    unfold Question_query_filter_notin_all, query; simpl;
    rewrite pg_integer_operands_ints; do 2 f_equal;
    apply list_filter_iff; intros q; rewrite sql_not_in_ints.
  - apply Z.eqb_eq in E. subst. intuition congruence.
  - apply Z.eqb_neq in E. tauto.
Qed.

Lemma play_quiz_run previous category_id body draw s :
  quiz_body previous category_id body ->
  dispatch (play_quiz draw (Json body)) s =
  (match candidates previous category_id s with
   | [] => internal_server_error
   | _ :: _ =>
       match candidates previous category_id s !! draw with
       | Some q => quiz_answer q
       | None => internal_server_error
       end
   end, s).
Proof.
  intros (d & c & -> & Hp & Hc & Hid).
  unfold dispatch, play_quiz, try_except, bind, lift, get_json, ret,
    subscript, dot_get.
  rewrite Hp, Hc, Hid. simpl py_int. cbv iota beta.
  rewrite quiz_query_candidates.
  unfold randrange, getitem.
  destruct (candidates previous category_id s) as [|q l]; [reflexivity|].
  simpl length. simpl Nat.eqb. cbv iota.
  destruct ((q :: l) !! draw); reflexivity.
Qed.

Lemma format_inj q r : format q = format r -> q = r.
Proof.
  assert (Hn : forall A (f : A -> pyval) (x y : option A),
            (forall a b, f a = f b -> a = b) -> (forall a, f a <> PNone) ->
            nullable f x = nullable f y -> x = y).
  { intros A f [a|] [b|] Hinj Hne H; simpl in H; try reflexivity.
    - f_equal. now apply Hinj.
    - now apply Hne in H.
    - symmetry in H. now apply Hne in H. }
  destruct q, r. unfold format. simpl. intros H.
  injection H as Hi Hq Ha Hc Hd.
  apply Hn in Hq, Ha, Hc, Hd; try congruence; discriminate.
Qed.

Lemma candidates_NoDup previous category_id s :
  NoDup (Question.id <$> questions s) ->
  NoDup (candidates previous category_id s).
Proof.
  intros Hnd. apply NoDup_filter. eapply NoDup_fmap_1. exact Hnd.
Qed.

(** C3: for a well-formed body the question returned is the one the
    generator's draw picks in the candidate set (the questions whose id is
    not in previous_questions, of the given category unless its id is 0);
    it belongs to that set, and every candidate is returned for exactly one
    of the equally likely draws, so the choice is uniform. *)
Theorem play_quiz_uniform (previous : list Z) (category_id : Z)
    (body : pyval) (s : db) :
  quiz_body previous category_id body ->
  NoDup (Question.id <$> questions s) ->
  let cands := candidates previous category_id s in
  (forall q, q ∈ cands <->
     q ∈ questions s /\ (Question.id q ∉ previous) /\
     (category_id <> 0 -> Question.category q = Some category_id)) /\
  (forall draw, (draw < length cands)%nat ->
     exists q, cands !! draw = Some q /\ q ∈ cands /\
       dispatch (play_quiz draw (Json body)) s = (quiz_answer q, s)) /\
  (forall q, q ∈ cands ->
     exists draw, (draw < length cands)%nat /\
       dispatch (play_quiz draw (Json body)) s = (quiz_answer q, s) /\
       forall draw', (draw' < length cands)%nat ->
         dispatch (play_quiz draw' (Json body)) s = (quiz_answer q, s) ->
         draw' = draw).
Proof.
  intros Hbody Hnd cands.
  assert (Hrun : forall draw q, cands !! draw = Some q ->
            dispatch (play_quiz draw (Json body)) s = (quiz_answer q, s)).
  { intros draw q Hq. rewrite (play_quiz_run _ _ _ _ _ Hbody).
    fold cands. rewrite Hq. destruct cands; [discriminate|reflexivity]. }
  split; [|split].
  - intros q. unfold cands, candidates. rewrite list_elem_of_filter. tauto.
  - intros draw Hlt.
    destruct (lookup_lt_is_Some_2 cands draw Hlt) as [q Hq].
    exists q. split; [exact Hq|]. split.
    + apply list_elem_of_lookup. eauto.
    + now apply Hrun.
  - intros q Hin. apply list_elem_of_lookup in Hin as [draw Hq].
    exists draw. split; [|split].
    + eapply lookup_lt_Some; eauto.
    + now apply Hrun.
    + intros draw' Hlt Hrun'.
      destruct (lookup_lt_is_Some_2 cands draw' Hlt) as [q' Hq'].
      rewrite (Hrun _ _ Hq') in Hrun'.
      assert (q' = q).
      { apply format_inj. unfold quiz_answer, jsonify in Hrun'. congruence. }
      subst q'.
      eapply (NoDup_lookup cands); eauto.
      now apply candidates_NoDup.
Qed.

Lemma play_quiz_uniform_witness :
  dispatch (play_quiz 1 (Json (sample_quiz_body [1] (PInt 2)))) sample_db =
    (quiz_answer (Question.Build 2 (Some "abc") (Some "def") (Some 2) (Some 1)),
     sample_db).
Proof.
  assert (Hbody : quiz_body [1] 2 (sample_quiz_body [1] (PInt 2))).
  { eexists _, _. repeat split; reflexivity. }
  assert (Hnd : NoDup (Question.id <$> questions sample_db))
    by (apply (bool_decide_unpack _); vm_compute; exact I).
  destruct (play_quiz_uniform [1] 2 _ sample_db Hbody Hnd) as (_ & Hdraw & _).
  destruct (Hdraw 1%nat) as (q & Hq & _ & Hrun).
  - vm_compute. lia.
  - vm_compute in Hq. injection Hq as <-. exact Hrun.
Defined.

(** C9: for a well-formed body whose candidate set is empty the draw from
    the empty range raises an error that the view does not catch, and the
    answer is the 500 envelope, whatever the generator. *)
Theorem play_quiz_no_candidates (previous : list Z) (category_id : Z)
    (body : pyval) (draw : nat) (s : db) :
  quiz_body previous category_id body ->
  candidates previous category_id s = [] ->
  dispatch (play_quiz draw (Json body)) s =
    ((500, jsonify [(KStr "success", PBool false);
                    (KStr "error", PInt 500);
                    (KStr "message", PStr "Internal Server Error")]), s).
Proof.
  intros Hbody Hnone.
  rewrite (play_quiz_run _ _ _ _ _ Hbody), Hnone. reflexivity.
Qed.

Lemma play_quiz_no_candidates_witness :
  dispatch (play_quiz 0 (Json (sample_quiz_body [1; 2; 5] (PInt 0))))
    sample_db =
    ((500, jsonify [(KStr "success", PBool false);
                    (KStr "error", PInt 500);
                    (KStr "message", PStr "Internal Server Error")]),
     sample_db).
Proof.
  apply (play_quiz_no_candidates [1; 2; 5] 0).
  - eexists _, _. repeat split; reflexivity.
  - vm_compute. reflexivity.
Defined.

(** The view reads the tables and never writes them. *)
Lemma play_quiz_reads_only draw request_json : reads_only (play_quiz draw request_json).
Proof.
  unfold play_quiz.
  apply reads_only_try_except.
  - repeat (apply reads_only_bind; [auto with reads_only | intros ?]).
    auto with reads_only.
  - intros e h Hh. destruct e; inversion Hh; subst; auto with reads_only.
Qed.

Lemma play_quiz_db_unchanged draw request_json s :
  snd (dispatch (play_quiz draw request_json) s) = s.
Proof.
  unfold dispatch.
  pose proof (play_quiz_reads_only draw request_json s) as H.
  destruct (play_quiz draw request_json s). exact H.
Qed.

(** A body without one of the two fields is answered 400. *)
Lemma play_quiz_missing_field draw d s :
  dict_get (KStr "previous_questions") d = None \/
  dict_get (KStr "quiz_category") d = None ->
  dispatch (play_quiz draw (Json (PDict d))) s = (bad_request, s).
Proof.
  unfold dispatch, play_quiz, try_except, bind, lift, get_json, ret,
    subscript.
  destruct (dict_get (KStr "previous_questions") d); [|reflexivity].
  destruct (dict_get (KStr "quiz_category") d); [|reflexivity].
  intros [H|H]; discriminate.
Qed.

(** C4 fails on the code: with a quiz_category whose id is the text "abc"
    the conversion to an integer raises ValueError, which the view does not
    catch, and the answer is 500, not 400. The tables are left as they
    were. *)
Theorem play_quiz_id_not_integer (draw : nat) (s : db) :
  dispatch (play_quiz draw (Json (sample_quiz_body [] (PStr "abc")))) s =
    (internal_server_error, s) /\
  internal_server_error <> bad_request.
Proof. split; [reflexivity | discriminate]. Qed.

(** ** The primary keys are kept *)

Lemma delete_question_keeps_keys question_id s :
  db_ok s -> db_ok (snd (dispatch (delete_question question_id) s)).
Proof.
  intros [Hnd Hgen Hcat]. rewrite delete_question_run.
  destruct (pg_int4in question_id) as [k|]; [|now split].
  destruct (find _ (questions s)) as [q|]; [|now split].
  split; simpl.
  - induction (questions s) as [|r l IH]; [constructor|].
    rewrite filter_cons. rewrite fmap_cons in Hnd.
    apply NoDup_cons in Hnd as [Hr Hnd].
    apply Forall_cons in Hgen as [_ Hgen].
    destruct (decide _); [|now apply IH].
    rewrite fmap_cons. apply NoDup_cons. split; [|now apply IH].
    intros Hin. apply Hr.
    apply list_elem_of_fmap in Hin as (x & Hx & Hin).
    apply list_elem_of_filter in Hin as [_ Hin].
    apply list_elem_of_fmap. eauto.
  - apply Forall_forall. intros r Hr.
    rewrite Forall_forall in Hgen. apply Hgen.
    now apply list_elem_of_filter in Hr as [_ Hr].
  - exact Hcat.
Qed.

Lemma create_question_keeps_keys request_json s :
  db_ok s -> db_ok (snd (dispatch (create_question request_json) s)).
Proof.
  intros Hok.
  destruct request_json as [| |body]; try exact Hok.
  destruct body; try exact Hok.
  rewrite create_question_run.
  destruct (dict_get (KStr "question") d) as [vq|]; [|exact Hok].
  destruct (dict_get (KStr "answer") d) as [va|]; [|exact Hok].
  destruct (dict_get (KStr "difficulty") d) as [vd|]; [|exact Hok].
  destruct (dict_get (KStr "category") d) as [vc|]; [|exact Hok].
  unfold Question_insert.
  destruct (pg_text_store vq); [|exact Hok].
  destruct (pg_text_store va); [|exact Hok].
  destruct (pg_integer_store vc); [|exact Hok].
  destruct (pg_integer_store vd); [|exact Hok].
  destruct (existsb _ (questions s)) eqn:E; [exact Hok|].
  destruct Hok as [Hnd Hgen Hcat]. split; simpl.
  - rewrite fmap_app. apply NoDup_app. split; [exact Hnd|]. split.
    + intros x Hx Hx'. simpl in Hx'. apply list_elem_of_singleton in Hx'.
      subst x. apply list_elem_of_fmap in Hx as (r & Hi & Hr).
      rewrite Forall_forall in Hgen.
      specialize (Hgen r Hr). lia.
    + apply NoDup_singleton.
  - apply Forall_app. split.
    + eapply Forall_impl; [exact Hgen|]. simpl. intros r Hr. lia.
    + constructor; [simpl; lia | constructor].
  - exact Hcat.
Qed.

(** * Further properties *)

Lemma uint_value_acc d p :
  uint_value (Z.pos p) d = Z.pos (Pos.of_uint_acc d p).
Proof.
  revert p. induction d; intros p; cbn [uint_value Pos.of_uint_acc];
    try reflexivity; rewrite <- IHd; f_equal; lia.
Qed.

Lemma uint_value_of_uint d : uint_value 0 d = Z.of_N (Pos.of_uint d).
Proof.
  induction d; cbn [uint_value Pos.of_uint];
    first [ reflexivity | exact IHd | apply uint_value_acc ].
Qed.

Lemma pg_digits_stop acc rest :
  starts_with_digit rest = false -> pg_digits acc rest = (acc, rest).
Proof.
  destruct rest as [|c rest]; simpl; [reflexivity|]. now intros ->.
Qed.

Lemma pg_digits_uint d acc rest :
  starts_with_digit rest = false ->
  pg_digits acc (chars (NilEmpty.string_of_uint d) ++ rest)
  = (uint_value acc d, rest).
Proof.
  intros Hrest. revert acc.
  induction d; intros acc;
    [ now apply pg_digits_stop
    | cbn [NilEmpty.string_of_uint chars list_ascii_of_string app uint_value];
      fold (chars (NilEmpty.string_of_uint d));
      cbn [pg_digits]; apply IHd .. ].
Qed.

Lemma digit_not_space_or_sign c :
  is_digit c = true ->
  pg_isspace c = false /\ Ascii.eqb c "-" = false /\ Ascii.eqb c "+" = false.
Proof.
  destruct c as [[] [] [] [] [] [] [] []]; try discriminate;
    intros _; repeat split; reflexivity.
Qed.

Lemma pg_int4in_unsigned s :
  starts_with_digit (chars s) = true ->
  pg_int4in s =
  let '(n, rest) := pg_digits 0 (chars s) in
  if forallb pg_isspace rest && in_int4 n then Some n else None.
Proof.
  unfold pg_int4in. destruct (chars s) as [|c l]; [discriminate|].
  intros Hc. simpl in Hc.
  destruct (digit_not_space_or_sign c Hc) as (Hs & Hm & Hp).
  cbn [lstrip]. rewrite Hs.
  assert (E : match c :: l with
              | "-"%char :: l' => (true, l')
              | "+"%char :: l' => (false, l')
              | _ => (false, c :: l)
              end = (false, c :: l)).
  { apply Ascii.eqb_neq in Hm, Hp.
    destruct c as [[] [] [] [] [] [] [] []]; try reflexivity; congruence. }
  rewrite E. cbn [starts_with_digit]. rewrite Hc. reflexivity.
Qed.

Lemma pg_int4in_negative s l :
  chars s = "-"%char :: l ->
  starts_with_digit l = true ->
  pg_int4in s =
  let '(n, rest) := pg_digits 0 l in
  if forallb pg_isspace rest && in_int4 (- n) then Some (- n) else None.
Proof.
  unfold pg_int4in. intros -> Hl.
  change (lstrip pg_isspace ("-"%char :: l)) with ("-"%char :: l).
  cbv iota beta. rewrite Hl. reflexivity.
Qed.

Lemma uint_string_starts_with_digit d :
  starts_with_digit (chars (NilZero.string_of_uint d)) = true.
Proof. destruct d; reflexivity. Qed.

Lemma pg_digits_decimal d :
  pg_digits 0 (chars (NilZero.string_of_uint d)) = (Z.of_N (Pos.of_uint d), []).
Proof.
  assert (H : pg_digits 0 (chars (NilEmpty.string_of_uint d) ++ [])
              = (Z.of_N (Pos.of_uint d), [])).
  { rewrite pg_digits_uint by reflexivity. now rewrite uint_value_of_uint. }
  rewrite app_nil_r in H.
  destruct d; first [exact H | reflexivity].
Qed.

Lemma pg_int4in_decimal z : in_int4 z = true -> pg_int4in (decimal z) = Some z.
Proof.
  intros Hz. unfold decimal, NilZero.string_of_int, Z.to_int.
  destruct z as [|p|p].
  - reflexivity.
  - rewrite pg_int4in_unsigned by apply uint_string_starts_with_digit.
    rewrite pg_digits_decimal, DecimalPos.Unsigned.of_to.
    cbn [forallb andb Z.of_N]. now rewrite Hz.
  - rewrite (pg_int4in_negative _ (chars (NilZero.string_of_uint (Pos.to_uint p))))
      by (reflexivity || apply uint_string_starts_with_digit).
    rewrite pg_digits_decimal, DecimalPos.Unsigned.of_to.
    cbn [forallb andb Z.of_N]. change (- Z.pos p) with (Z.neg p).
    now rewrite Hz.
Qed.

Lemma lstrip_none sp l :
  Forall (fun c => sp c = false) l -> lstrip sp l = l.
Proof. destruct 1 as [|c l Hc _]; simpl; [reflexivity|]. now rewrite Hc. Qed.

Lemma strip_none sp l :
  Forall (fun c => sp c = false) l -> strip sp l = l.
Proof.
  intros H. unfold strip. rewrite (lstrip_none sp l H).
  rewrite lstrip_none; [apply rev_involutive|].
  apply Forall_forall. intros c Hc. rewrite Forall_forall in H.
  apply H. apply list_elem_of_In. apply in_rev. now apply list_elem_of_In.
Qed.

Lemma uint_string_digits d :
  Forall (fun c => is_digit c = true) (chars (NilEmpty.string_of_uint d)).
Proof. induction d; simpl; constructor; (reflexivity || exact IHd). Qed.

Lemma uint_string_zero_digits d :
  Forall (fun c => is_digit c = true) (chars (NilZero.string_of_uint d)).
Proof.
  destruct d; try apply uint_string_digits.
  repeat constructor.
Qed.

Lemma digit_not_py_space c :
  is_digit c = true ->
  py_isspace c = false /\ Ascii.eqb c "_" = false.
Proof.
  destruct c as [[] [] [] [] [] [] [] []]; try discriminate;
    intros _; split; reflexivity.
Qed.

Lemma py_digits_uint d acc ends :
  py_digits acc ends (chars (NilEmpty.string_of_uint d)) =
  match d with
  | Decimal.Nil => if ends then Some acc else None
  | _ => Some (uint_value acc d)
  end.
Proof.
  revert acc ends.
  induction d; intros acc ends; [reflexivity | ..];
    cbn [NilEmpty.string_of_uint chars list_ascii_of_string uint_value];
    fold (chars (NilEmpty.string_of_uint d));
    cbn [py_digits]; rewrite IHd; destruct d; reflexivity.
Qed.

Lemma py_digits_decimal d :
  py_digits 0 false (chars (NilZero.string_of_uint d))
  = Some (Z.of_N (Pos.of_uint d)).
Proof.
  destruct d; [reflexivity | ..];
    (unfold NilZero.string_of_uint; rewrite py_digits_uint;
     now rewrite uint_value_of_uint).
Qed.

Lemma py_int_of_string_decimal z : py_int_of_string (decimal z) = Some z.
Proof.
  unfold py_int_of_string, decimal, NilZero.string_of_int, Z.to_int.
  destruct z as [|p|p].
  - reflexivity.
  - set (d := Pos.to_uint p).
    rewrite strip_none.
    2:{ eapply Forall_impl; [apply uint_string_zero_digits|].
        intros c Hc. now apply digit_not_py_space. }
    pose proof (uint_string_zero_digits d) as Hd.
    pose proof (py_digits_decimal d) as Hv.
    destruct (chars (NilZero.string_of_uint d)) as [|c l] eqn:E.
    + rewrite Hv. unfold d. now rewrite DecimalPos.Unsigned.of_to.
    + apply Forall_cons in Hd as [Hc _].
      destruct c as [[] [] [] [] [] [] [] []];
        try (vm_compute in Hc; discriminate Hc);
        cbv iota beta; rewrite Hv; unfold d; now rewrite DecimalPos.Unsigned.of_to.
  - set (d := Pos.to_uint p).
    change (chars (String "-" (NilZero.string_of_uint d)))
      with ("-"%char :: chars (NilZero.string_of_uint d)).
    rewrite strip_none.
    2:{ constructor; [reflexivity|].
        eapply Forall_impl; [apply uint_string_zero_digits|].
        intros c Hc. now apply digit_not_py_space. }
    cbv iota beta. rewrite py_digits_decimal. unfold d.
    now rewrite DecimalPos.Unsigned.of_to.
Qed.

Lemma create_question_not_object request_json s :
  (forall d, request_json <> Json (PDict d)) ->
  dispatch (create_question request_json) s = (bad_request, s).
Proof.
  intros H. destruct request_json as [| |[]]; try reflexivity.
  exfalso. now apply (H d).
Qed.

Lemma existsb_id_false i (l : list Question.t) :
  existsb (fun r => Question.id r =? i) l = false <-> i ∉ Question.id <$> l.
Proof.
  induction l as [|r l IH]; simpl.
  - split; [intros _; apply not_elem_of_nil | reflexivity].
  - rewrite orb_false_iff, IH, not_elem_of_cons, Z.eqb_neq.
    split; intros [H1 H2]; split; auto.
Qed.

Lemma create_question_success request_json s v s' :
  dispatch (create_question request_json) s = ((200, v), s') ->
  exists q a c d,
    (questions_id_seq s + 1 ∉ Question.id <$> questions s) /\
    s' = Db (questions s ++
               [Question.Build (questions_id_seq s + 1) q a c d])
            (questions_id_seq s + 1) (categories s) /\
    v = created_body (questions_id_seq s + 1).
Proof.
  intros H.
  destruct request_json as [| |body];
    try (rewrite create_question_not_object in H by discriminate;
         discriminate).
  destruct body;
    try (rewrite create_question_not_object in H by discriminate;
         discriminate).
  rewrite create_question_run in H.
  destruct (dict_get (KStr "question") d) as [vq|]; [|discriminate].
  destruct (dict_get (KStr "answer") d) as [va|]; [|discriminate].
  destruct (dict_get (KStr "difficulty") d) as [vd|]; [|discriminate].
  destruct (dict_get (KStr "category") d) as [vc|]; [|discriminate].
  destruct (Question_insert vq va vc vd s) as [[i|e] s1] eqn:E.
  - unfold Question_insert in E.
    destruct (pg_text_store vq) as [q|]; [|discriminate].
    destruct (pg_text_store va) as [a|]; [|discriminate].
    destruct (pg_integer_store vc) as [c|]; [|discriminate].
    destruct (pg_integer_store vd) as [dif|]; [|discriminate].
    destruct (existsb _ (questions s)) eqn:Ex; [discriminate|].
    apply existsb_id_false in Ex.
    injection E as <- <-. injection H as <- <-.
    exists q, a, c, dif. auto.
  - apply Question_insert_raises in E as [_ [He|[He|He]]]; subst e;
      discriminate.
Qed.

Lemma find_id_app_new i row (l : list Question.t) :
  i ∉ Question.id <$> l -> Question.id row = i ->
  find (fun q => Question.id q =? i) (l ++ [row]) = Some row.
Proof.
  intros Hout Hrow. induction l as [|r l IH]; simpl.
  - subst i. now rewrite Z.eqb_refl.
  - rewrite fmap_cons, not_elem_of_cons in Hout. destruct Hout as [Hne Hout].
    destruct (Question.id r =? i) eqn:E; [apply Z.eqb_eq in E; congruence|].
    now apply IH.
Qed.

Lemma filter_id_app_new i row (l : list Question.t) :
  i ∉ Question.id <$> l -> Question.id row = i ->
  filter (fun r => Question.id r <> i) (l ++ [row]) = l.
Proof.
  intros Hout Hrow. rewrite filter_app, filter_id_absent by assumption.
  rewrite filter_cons. destruct (decide _) as [Hne|_]; [congruence|].
  apply app_nil_r.
Qed.

(** X5: deleting the id that POST /questions just returned, written in
    decimal in the path as the test suite does, answers 200, echoes that
    text and restores the question table. *)
Theorem create_then_delete (request_json : payload) (s s' : db) (v : pyval) :
  dispatch (create_question request_json) s = ((200, v), s') ->
  in_int4 (questions_id_seq s + 1) = true ->
  let created := questions_id_seq s + 1 in
  v = created_body created /\
  exists s'',
    dispatch (delete_question (decimal created)) s' =
      ((200, deleted_body (decimal created)), s'') /\
    questions s'' = questions s /\
    categories s'' = categories s.
Proof.
  intros Hcreate Hrange created. subst created.
  apply create_question_success in Hcreate
    as (q & a & c & d & Hfresh & -> & ->).
  split; [reflexivity|].
  rewrite delete_question_run, (pg_int4in_decimal _ Hrange). simpl questions.
  rewrite (find_id_app_new (questions_id_seq s + 1))
    by (assumption || reflexivity).
  eexists. split; [reflexivity|]. simpl.
  split; [|reflexivity].
  now apply filter_id_app_new.
Qed.

Lemma classic_payload request_json :
  (forall d, request_json <> Json (PDict d)) \/
  (exists d, request_json = Json (PDict d)).
Proof.
  destruct request_json as [| |[]]; try (left; discriminate).
  right. now exists d.
Qed.


Lemma id_inj_on (l : list Question.t) x y :
  NoDup (Question.id <$> l) -> x ∈ l -> y ∈ l ->
  Question.id x = Question.id y -> x = y.
Proof.
  induction l as [|r l IH]; intros Hnd Hx Hy Hid; [inversion Hx|].
  rewrite fmap_cons in Hnd. apply NoDup_cons in Hnd as [Hr Hnd].
  apply elem_of_cons in Hx as [->|Hx]; apply elem_of_cons in Hy as [->|Hy].
  - reflexivity.
  - exfalso. apply Hr. rewrite Hid. apply list_elem_of_fmap. eauto.
  - exfalso. apply Hr. rewrite <- Hid. apply list_elem_of_fmap. eauto.
  - now apply IH.
Qed.

Lemma order_by_id_snoc (l : list Question.t) row :
  NoDup (Question.id <$> l) ->
  Forall (fun r => Question.id r < Question.id row) l ->
  merge_sort by_question_id (l ++ [row]) =
  merge_sort by_question_id l ++ [row].
Proof.
  intros Hnd Hlt.
  assert (Hnd' : NoDup (Question.id <$> (l ++ [row]))).
  { rewrite fmap_app. apply NoDup_app. split; [exact Hnd|]. split.
    - intros x Hx Hx'. apply list_elem_of_singleton in Hx'. subst x.
      apply list_elem_of_fmap in Hx as (r & Hi & Hr).
      rewrite Forall_forall in Hlt. specialize (Hlt r Hr). lia.
    - apply NoDup_singleton. }
  assert (Hp1 : merge_sort by_question_id (l ++ [row]) ≡ₚ l ++ [row])
    by apply merge_sort_Permutation.
  assert (Hp2 : merge_sort by_question_id l ++ [row] ≡ₚ l ++ [row])
    by (now rewrite merge_sort_Permutation).
  apply StronglySorted_unique_strong with (R := by_question_id).
  - intros x1 x2 H1 H2 H12 H21. unfold by_question_id in *.
    rewrite Hp1 in H1. rewrite Hp2 in H2.
    apply (id_inj_on (l ++ [row])); auto. lia.
  - apply StronglySorted_merge_sort; apply _.
  - apply StronglySorted_app. split; [|split].
    + intros x1 x2 H1 H2. apply list_elem_of_singleton in H2. subst x2.
      rewrite merge_sort_Permutation in H1.
      rewrite Forall_forall in Hlt. specialize (Hlt x1 H1).
      unfold by_question_id. lia.
    + apply StronglySorted_merge_sort; apply _.
    + repeat constructor.
  - now rewrite Hp1, Hp2.
Qed.

(** X4: after a successful POST /questions the created id is greater than
    every earlier id, so in the order of ids that GET /questions pages
    through, the new question comes last. *)
Theorem created_question_is_listed_last (request_json : payload)
    (s s' : db) (v : pyval) :
  db_ok s ->
  dispatch (create_question request_json) s = ((200, v), s') ->
  exists row,
    v = created_body (Question.id row) /\
    Forall (fun r => Question.id r < Question.id row) (questions s) /\
    merge_sort by_question_id (questions s') =
      merge_sort by_question_id (questions s) ++ [row].
Proof.
  intros [Hnd Hgen _] Hcreate.
  apply create_question_success in Hcreate
    as (q & a & c & d & Hfresh & -> & ->).
  exists (Question.Build (questions_id_seq s + 1) q a c d).
  assert (Hlt : Forall (fun r => Question.id r < questions_id_seq s + 1)
                  (questions s)).
  { eapply Forall_impl; [exact Hgen|]. simpl. intros r Hr. lia. }
  split; [reflexivity|]. split; [exact Hlt|].
  simpl questions. now apply order_by_id_snoc.
Qed.

Lemma search_question_not_object request_json s :
  (forall d, request_json <> Json (PDict d)) ->
  dispatch (search_question request_json) s = (bad_request, s).
Proof.
  intros H. destruct request_json as [| |[]]; try reflexivity.
  exfalso. now apply (H d).
Qed.

(** X7: a search request that carries no JSON object, or an object without
    the query field, is answered 400. *)
Theorem search_question_rejects_malformed (request_json : payload) (s : db) :
  (forall d, request_json = Json (PDict d) ->
             dict_get (KStr "query") d = None) ->
  dispatch (search_question request_json) s = (bad_request, s).
Proof.
  intros H. destruct (classic_payload request_json) as [Hno|[d ->]].
  - now apply search_question_not_object.
  - rewrite search_question_run, (H d eq_refl). reflexivity.
Qed.

(** X6: for a query without [%], [_] and backslash, POST /questions/search
    returns exactly the questions whose text contains the query, letter
    case apart, in table order, with their number. *)
Theorem search_question_exact_without_wildcards (d : dict) (query : string)
    (s : db) :
  dict_get (KStr "query") d = Some (PStr query) ->
  forallb (fun c => negb (is_wildcard c)) (chars query) = true ->
  dispatch (search_question (Json (PDict d))) s =
    ((200, search_body
             (filter (fun q => contains_nocase query (Question.question q) = true)
                     (questions s))), s).
Proof.
  intros Hd Hq. rewrite search_question_run, Hd.
  repeat f_equal.
  apply list_filter_iff. intros q.
  unfold pg_ilike, contains_nocase. simpl py_str.
  destruct (Question.question q) as [t|]; [|reflexivity].
  rewrite chars_append, chars_append.
  change (chars "%") with ["%"%char].
  change (["%"%char] ++ chars query ++ ["%"%char])
    with ("%"%char :: chars query ++ ["%"%char]).
  now rewrite like_literal_infix.
Qed.

(** X8: the empty query matches every question that has a text: the search
    returns all of them. *)
Theorem search_question_empty_query (d : dict) (s : db) :
  dict_get (KStr "query") d = Some (PStr "") ->
  dispatch (search_question (Json (PDict d))) s =
    ((200, search_body
             (filter (fun q => Question.question q <> None) (questions s))), s).
Proof.
  intros Hd. rewrite search_question_run, Hd.
  repeat f_equal.
  apply list_filter_iff. intros q.
  unfold pg_ilike. simpl py_str.
  destruct (Question.question q) as [t|].
  - change (chars ("%" ++ "" ++ "%")%string) with ("%"%char :: [] ++ ["%"%char]).
    rewrite like_literal_infix by reflexivity.
    split; [discriminate|]. intros _. now destruct (chars t).
  - split; [discriminate|]. intros H. now contradiction H.
Qed.

(** Letter case *)

Lemma lower_wildcards c :
  Ascii.eqb (lower c) "%" = Ascii.eqb c "%" /\
  Ascii.eqb (lower c) "_" = Ascii.eqb c "_" /\
  Ascii.eqb (lower c) "\" = Ascii.eqb c "\".
Proof. destruct c as [[] [] [] [] [] [] [] []]; repeat split; reflexivity. Qed.

Lemma same_lower_same_kind c1 c2 :
  lower c1 = lower c2 ->
  Ascii.eqb c1 "%" = Ascii.eqb c2 "%" /\
  Ascii.eqb c1 "_" = Ascii.eqb c2 "_" /\
  Ascii.eqb c1 "\" = Ascii.eqb c2 "\" /\
  forall a, eq_nocase c1 a = eq_nocase c2 a.
Proof.
  intros H.
  destruct (lower_wildcards c1) as (P1 & U1 & B1).
  destruct (lower_wildcards c2) as (P2 & U2 & B2).
  rewrite <- P1, <- U1, <- B1, <- P2, <- U2, <- B2, H.
  repeat split. intros a. unfold eq_nocase. now rewrite H.
Qed.

Lemma like_step eqc c p t :
  like eqc (c :: p) t =
  if Ascii.eqb c "%" then
    like eqc p t ||
    match t with [] => false | _ :: t' => like eqc (c :: p) t' end
  else if Ascii.eqb c "_" then
    match t with [] => false | _ :: t' => like eqc p t' end
  else if Ascii.eqb c "\" then
    match p with
    | [] => false
    | e :: p' =>
        match t with [] => false | a :: t' => eqc e a && like eqc p' t' end
    end
  else
    match t with [] => false | a :: t' => eqc c a && like eqc p t' end.
Proof.
  destruct (Ascii.eqb c "%") eqn:E.
  - apply Ascii.eqb_eq in E. subst c. apply like_percent.
  - simpl. rewrite E. reflexivity.
Qed.

Lemma like_nocase_pattern p1 p2 t :
  lower <$> p1 = lower <$> p2 ->
  like eq_nocase p1 t = like eq_nocase p2 t.
Proof.
  remember (length p1) as n eqn:Hn.
  revert p1 p2 t Hn. induction (lt_wf n) as [n _ IH]. intros p1 p2 t Hn Hp.
  destruct p1 as [|c1 p1], p2 as [|c2 p2]; try discriminate; [reflexivity|].
  rewrite !fmap_cons in Hp. injection Hp as Hc Hp.
  destruct (same_lower_same_kind c1 c2 Hc) as (HP & HU & HB & HE).
  assert (IH1 : forall t', like eq_nocase p1 t' = like eq_nocase p2 t').
  { intros t'. eapply (IH (length p1)); [subst n; simpl; lia|reflexivity|exact Hp]. }
  induction t as [|a t IHt].
  - rewrite !like_step, <- HP, <- HU, <- HB, IH1.
    destruct p1 as [|e1 p1], p2 as [|e2 p2]; try discriminate; reflexivity.
  - rewrite (like_step _ c1), (like_step _ c2), <- HP, <- HU, <- HB, !IH1, IHt, HE.
    destruct (Ascii.eqb c1 "%"); [reflexivity|].
    destruct (Ascii.eqb c1 "_"); [reflexivity|].
    destruct (Ascii.eqb c1 "\"); [|reflexivity].
    destruct p1 as [|e1 p1], p2 as [|e2 p2]; try discriminate; [reflexivity|].
    rewrite !fmap_cons in Hp. injection Hp as He Hp.
    destruct (same_lower_same_kind e1 e2 He) as (_ & _ & _ & HEe).
    rewrite HEe. f_equal.
    eapply (IH (length p1)); [subst n; simpl; lia|reflexivity|exact Hp].
Qed.

Lemma lower_idempotent c : lower (lower c) = lower c.
Proof. destruct c as [[] [] [] [] [] [] [] []]; reflexivity. Qed.

Lemma like_nocase_text p t1 t2 :
  lower <$> t1 = lower <$> t2 ->
  like eq_nocase p t1 = like eq_nocase p t2.
Proof.
  remember (length p) as n eqn:Hn.
  revert p t1 t2 Hn. induction (lt_wf n) as [n _ IH]. intros p t1 t2 Hn Ht.
  destruct p as [|c p].
  - destruct t1, t2; try discriminate; reflexivity.
  - assert (IH1 : forall u1 u2, lower <$> u1 = lower <$> u2 ->
                    like eq_nocase p u1 = like eq_nocase p u2).
    { intros u1 u2 Hu. eapply (IH (length p)); [subst n; simpl; lia|reflexivity|exact Hu]. }
    revert t2 Ht. induction t1 as [|a1 t1 IHt]; intros t2 Ht;
      destruct t2 as [|a2 t2]; try discriminate.
    + reflexivity.
    + rewrite !fmap_cons in Ht. injection Ht as Ha Ht.
      rewrite (like_step _ c p (a1 :: t1)), (like_step _ c p (a2 :: t2)).
      rewrite (IH1 (a1 :: t1) (a2 :: t2)) by (rewrite !fmap_cons; congruence).
      rewrite (IHt t2 Ht), (IH1 t1 t2 Ht).
      assert (HE : forall e, eq_nocase e a1 = eq_nocase e a2)
        by (intros e; unfold eq_nocase; now rewrite Ha).
      rewrite HE.
      destruct p as [|e p]; [reflexivity|].
      assert (IH2 : like eq_nocase p t1 = like eq_nocase p t2)
        by (eapply (IH (length p)); [subst n; simpl; lia|reflexivity|exact Ht]).
      now rewrite HE, IH2.
Qed.

(** X9: two queries that differ only in the case of their letters get the
    same answer. *)
Theorem search_question_ignores_case (d1 d2 : dict) (q1 q2 : string) (s : db) :
  dict_get (KStr "query") d1 = Some (PStr q1) ->
  dict_get (KStr "query") d2 = Some (PStr q2) ->
  lower <$> chars q1 = lower <$> chars q2 ->
  dispatch (search_question (Json (PDict d1))) s =
  dispatch (search_question (Json (PDict d2))) s.
Proof.
  intros H1 H2 Hq. rewrite !search_question_run, H1, H2.
  repeat f_equal.
  apply list_filter_iff. intros q.
  unfold pg_ilike. simpl py_str.
  destruct (Question.question q) as [t|]; [|reflexivity].
  rewrite (like_nocase_pattern (chars ("%" ++ q1 ++ "%")%string)
                               (chars ("%" ++ q2 ++ "%")%string));
    [reflexivity|].
  rewrite !chars_append, !fmap_app. now rewrite Hq.
Qed.



Lemma play_quiz_not_object draw request_json s :
  (forall d, request_json <> Json (PDict d)) ->
  dispatch (play_quiz draw request_json) s = (bad_request, s).
Proof.
  intros H. destruct request_json as [| |[]]; try reflexivity.
  exfalso. now apply (H d).
Qed.

(** X11: a quiz request that carries no JSON object, or lacks
    previous_questions or quiz_category, or whose quiz_category object has
    no id or a null, list or object id, is answered 400. *)
Theorem play_quiz_rejects_malformed (draw : nat) (request_json : payload)
    (s : db) :
  (forall d, request_json = Json (PDict d) ->
     dict_get (KStr "previous_questions") d = None \/
     dict_get (KStr "quiz_category") d = None \/
     exists c, dict_get (KStr "quiz_category") d = Some (PDict c) /\
               match dict_get (KStr "id") c with
               | None | Some PNone | Some (PList _) | Some (PDict _) => True
               | Some _ => False
               end) ->
  dispatch (play_quiz draw request_json) s = (bad_request, s).
Proof.
  intros H. destruct (classic_payload request_json) as [Hno|[d ->]].
  - now apply play_quiz_not_object.
  - specialize (H d eq_refl).
    unfold dispatch, play_quiz, try_except, bind, lift, get_json, ret,
      subscript, dot_get.
    destruct (dict_get (KStr "previous_questions") d) as [prev|];
      [|reflexivity].
    destruct (dict_get (KStr "quiz_category") d) as [qc|]; [|reflexivity].
    destruct H as [H|[H|(c & Hc & Hid)]]; try discriminate.
    injection Hc as ->.
    destruct (dict_get (KStr "id") c) as [[]|]; try contradiction;
      reflexivity.
Qed.

Lemma candidates_seen previous category_id s q :
  candidates (previous ++ [Question.id q]) category_id s =
  filter (fun r => Question.id r <> Question.id q)
         (candidates previous category_id s).
Proof.
  unfold candidates. rewrite list_filter_filter.
  apply list_filter_iff. intros r.
  rewrite not_elem_of_app, not_elem_of_cons.
  pose proof (not_elem_of_nil (Question.id r)). intuition.
Qed.

Lemma play_quiz_answer_candidate previous category_id body draw s q :
  quiz_body previous category_id body ->
  dispatch (play_quiz draw (Json body)) s = (quiz_answer q, s) ->
  q ∈ candidates previous category_id s.
Proof.
  intros Hbody H. rewrite (play_quiz_run _ _ _ _ _ Hbody) in H.
  destruct (candidates previous category_id s) as [|r l] eqn:E;
    [discriminate|].
  destruct ((r :: l) !! draw) as [q'|] eqn:Hq; [|discriminate].
  assert (q' = q).
  { apply format_inj. unfold quiz_answer, jsonify in H. congruence. }
  subst q'. apply list_elem_of_lookup. eauto.
Qed.

(** X12: once the id of the question a quiz request returned is added to
    previous_questions, the candidate set has exactly one question fewer
    and no draw returns that question again. *)
Theorem play_quiz_seen_question_leaves (previous : list Z) (category_id : Z)
    (body body' : pyval) (draw : nat) (s : db) (q : Question.t) :
  NoDup (Question.id <$> questions s) ->
  quiz_body previous category_id body ->
  quiz_body (previous ++ [Question.id q]) category_id body' ->
  dispatch (play_quiz draw (Json body)) s = (quiz_answer q, s) ->
  (length (candidates (previous ++ [Question.id q]) category_id s) + 1 =
   length (candidates previous category_id s))%nat /\
  forall draw',
    dispatch (play_quiz draw' (Json body')) s <> (quiz_answer q, s).
Proof.
  intros Hnd Hbody Hbody' Hrun.
  pose proof (play_quiz_answer_candidate _ _ _ _ _ _ Hbody Hrun) as Hq.
  split.
  - rewrite candidates_seen. apply length_filter_id.
    + unfold candidates. clear -Hnd.
      induction (questions s) as [|r l IH]; [constructor|].
      rewrite fmap_cons in Hnd. apply NoDup_cons in Hnd as [Hr Hnd].
      rewrite filter_cons. destruct (decide _); [|now apply IH].
      rewrite fmap_cons. apply NoDup_cons. split; [|now apply IH].
      intros Hin. apply Hr.
      apply list_elem_of_fmap in Hin as (x & Hx & Hin).
      apply list_elem_of_filter in Hin as [_ Hin].
      apply list_elem_of_fmap. eauto.
    + apply list_elem_of_fmap. eauto.
  - intros draw' Hrun'.
    apply (play_quiz_answer_candidate _ _ _ _ _ _ Hbody') in Hrun'.
    rewrite candidates_seen in Hrun'.
    apply list_elem_of_filter in Hrun' as [Hne _]. congruence.
Qed.

Lemma page_args_limit limit page :
  args_get_int (page_args limit page) "limit" 10 = limit.
Proof.
  unfold args_get_int, page_args. simpl.
  now rewrite py_int_of_string_decimal.
Qed.

Lemma page_args_page limit page :
  args_get_int (page_args limit page) "page" 1 = page.
Proof.
  unfold args_get_int, page_args. simpl.
  now rewrite py_int_of_string_decimal.
Qed.


(** X14: for a limit of at least 1 the pages 1 to k, one after the other,
    are the first k*limit questions in the order of the ids; when k*limit
    reaches the size of the table they hold every question exactly once. *)
Theorem get_questions_pages_concat (limit : Z) (k : nat) (s : db) :
  1 <= limit ->
  Z.of_nat k * limit <= int8_max ->
  exists rows : nat -> list Question.t,
    (forall p, (1 <= p <= k)%nat ->
       selected_page (page_args limit (Z.of_nat p)) s = Return (rows p)) /\
    concat (rows <$> seq 1 k) =
      take (k * Z.to_nat limit) (merge_sort by_question_id (questions s)) /\
    ((length (questions s) <= k * Z.to_nat limit)%nat ->
     concat (rows <$> seq 1 k) ≡ₚ questions s).
Proof.
  intros Hl Hk.
  set (sorted := merge_sort by_question_id (questions s)).
  exists (fun p => take (Z.to_nat limit)
                     (drop (Z.to_nat ((Z.of_nat p - 1) * limit)) sorted)).
  assert (Hcat : forall k,
            concat ((fun p => take (Z.to_nat limit)
                       (drop (Z.to_nat ((Z.of_nat p - 1) * limit)) sorted))
                    <$> seq 1 k)
            = take (k * Z.to_nat limit) sorted).
  { clear Hk k. intros k. induction k as [|k IH]; [reflexivity|].
    rewrite seq_S, fmap_app, concat_app, IH. simpl.
    rewrite app_nil_r.
    replace (Z.to_nat ((Z.of_nat (S k) - 1) * limit))
      with (k * Z.to_nat limit)%nat by nia.
    rewrite take_take_drop. f_equal. lia. }
  split; [|split].
  - intros p Hp.
    pose proof (selected_page_valid (page_args limit (Z.of_nat p)) s) as H.
    cbv zeta in H. rewrite page_args_limit, page_args_page in H.
    apply H; nia.
  - apply Hcat.
  - intros Hall. rewrite Hcat, take_ge.
    + apply merge_sort_Permutation.
    + unfold sorted.
      rewrite (Permutation_length (merge_sort_Permutation _ _)). exact Hall.
Qed.

Lemma get_categories_run s :
  dispatch get_categories s =
  (if (length (categories s) =? 0)%nat then not_found
   else (200, jsonify [(KStr "success", PBool true);
                       (KStr "categories",
                        categories_dict
                          (merge_sort by_category_id (categories s)))]), s).
Proof.
  unfold dispatch, get_categories, bind, Category_query_order_by_id_all,
    query. simpl.
  rewrite (Permutation_length (merge_sort_Permutation _ (categories s))).
  destruct (length (categories s) =? 0)%nat; reflexivity.
Qed.

(** X16: when GET /questions and GET /categories both answer 200 on a
    state, their categories fields are the same mapping. *)
Theorem get_questions_same_categories (args : list (string * string))
    (s : db) (v v' : pyval) :
  dispatch (get_questions args) s = ((200, v), s) ->
  dispatch get_categories s = ((200, v'), s) ->
  exists mapping,
    subscript v "categories" = Return mapping /\
    subscript v' "categories" = Return mapping.
Proof.
  intros Hq Hc. rewrite get_questions_run in Hq. rewrite get_categories_run in Hc.
  exists (categories_dict (merge_sort by_category_id (categories s))).
  destruct (length (categories s) =? 0)%nat; [discriminate|].
  injection Hc as <-.
  destruct (selected_page args s) as [rows|e] eqn:E.
  - destruct (length rows =? 0)%nat; [discriminate|].
    injection Hq as <-. split; reflexivity.
  - apply selected_page_raises in E. subst e. discriminate.
Qed.

(** X17: for a category id that the engine reads as an integer and that no
    question has, the answer is 200 with an empty list and a count of 0,
    not 404. *)
Theorem get_questions_by_category_unknown (category_id : string) (k : Z)
    (s : db) :
  pg_int4in category_id = Some k ->
  (forall q, q ∈ questions s -> Question.category q <> Some k) ->
  dispatch (get_questions_by_category category_id) s =
    ((200, jsonify [(KStr "success", PBool true);
                    (KStr "questions", PList []);
                    (KStr "total_questions", PInt 0);
                    (KStr "current_category", PStr category_id)]), s).
Proof.
  intros Hk Hnone.
  unfold dispatch, get_questions_by_category, try_except, bind,
    Question_query_filter_category_all, query.
  rewrite Hk. simpl.
  assert (E : filter (fun q => Question.category q = Some k) (questions s) = []).
  { induction (questions s) as [|r l IH]; [reflexivity|].
    rewrite filter_cons. destruct (decide _) as [Hr|_].
    - exfalso. apply (Hnone r); [left|exact Hr].
    - apply IH. intros q Hq. apply Hnone. now right. }
  rewrite E. reflexivity.
Qed.

Create HintDb raises.

Lemma raises_only_ret P {A} (a : A) : raises_only P (ret a).
Proof. intros s e s' H. discriminate. Qed.

Lemma raises_only_raise (P : exn -> Prop) {A} e :
  P e -> raises_only P (@raise A e).
Proof. intros He s e' s' H. injection H as <- _. exact He. Qed.

Lemma raises_only_abort_400 {A} : raises_only expected (@abort A 400).
Proof. apply raises_only_raise. simpl. auto. Qed.

Lemma raises_only_abort_404 {A} : raises_only expected (@abort A 404).
Proof. apply raises_only_raise. simpl. auto. Qed.

Lemma raises_only_lift P {A} (o : outcome A) :
  (forall e, o = Raise e -> P e) -> raises_only P (lift o).
Proof. intros Ho s e s' H. injection H as H _. auto. Qed.

Lemma raises_only_query P {A} (f : db -> outcome A) :
  (forall s e, f s = Raise e -> P e) -> raises_only P (query f).
Proof. intros Hf s e s' H. injection H as H _. eauto. Qed.

Lemma raises_only_if P {A} (b : bool) (m1 m2 : py A) :
  raises_only P m1 -> raises_only P m2 ->
  raises_only P (if b then m1 else m2).
Proof. now destruct b. Qed.

Lemma raises_only_bind P {A B} (m : py A) (k : A -> py B) :
  raises_only P m -> (forall a, raises_only P (k a)) ->
  raises_only P (bind m k).
Proof.
  intros Hm Hk s e s' H. unfold bind in H.
  destruct (m s) as [[a|e0] s0] eqn:E.
  - eapply Hk; eauto.
  - injection H as <- _. eapply Hm; eauto.
Qed.

Lemma raises_only_try_except P {A} (body : py A) handler :
  raises_only P body ->
  (forall e h, handler e = Some h -> raises_only P h) ->
  raises_only P (try_except body handler).
Proof.
  intros Hb Hh s e s' H. unfold try_except in H.
  destruct (body s) as [[a|e0] s0] eqn:E; [discriminate|].
  destruct (handler e0) as [h|] eqn:Eh.
  - eapply Hh; eauto.
  - injection H as <- _. eapply Hb; eauto.
Qed.

Lemma subscript_raises obj key e : subscript obj key = Raise e -> expected e.
Proof.
  unfold subscript. destruct obj; try (intros [= <-]; exact I).
  destruct (dict_get _ _); intros [= <-]; exact I.
Qed.

Lemma dot_get_raises obj key e : dot_get obj key = Raise e -> expected e.
Proof.
  unfold dot_get. destruct obj; try (intros [= <-]; exact I).
  destruct (dict_get _ _); discriminate.
Qed.

Lemma py_int_raises v e : py_int v = Raise e -> expected e.
Proof.
  unfold py_int. destruct v; try (intros [= <-]; exact I); try discriminate.
  destruct (py_int_of_string s); [discriminate|]. intros [= <-]. exact I.
Qed.

Lemma randrange_raises draw n e : randrange draw n = Raise e -> expected e.
Proof.
  unfold randrange. destruct (n =? 0)%nat; [|discriminate].
  intros [= <-]. exact I.
Qed.

Lemma getitem_raises {A} (l : list A) i e : getitem l i = Raise e -> expected e.
Proof.
  unfold getitem. destruct (l !! i); [discriminate|]. intros [= <-]. exact I.
Qed.

Lemma pg_integer_operand_raises v e :
  pg_integer_operand v = Raise e -> expected e.
Proof.
  unfold pg_integer_operand.
  destruct v; try discriminate; try (intros [= <-]; exact I).
  destruct (pg_int4in s); [discriminate|]. intros [= <-]. exact I.
Qed.

Lemma pg_integer_operands_raises l e :
  pg_integer_operands l = Raise e -> expected e.
Proof.
  induction l as [|v l IH]; simpl; [discriminate|].
  destruct (pg_integer_operand v) as [o|e0] eqn:E.
  - destruct (pg_integer_operands l); [discriminate|].
    intros [= <-]. now apply IH.
  - intros [= <-]. eapply pg_integer_operand_raises; eauto.
Qed.

Lemma filter_notin_raises previous category_id :
  raises_only expected (Question_query_filter_notin_all previous category_id).
Proof.
  apply raises_only_query. intros s e.
  destruct (sa_in_elements previous) as [l|e0] eqn:E.
  - destruct (pg_integer_operands l) as [os|e1] eqn:E1.
    + destruct category_id; discriminate.
    + intros [= <-]. eapply pg_integer_operands_raises; eauto.
  - intros [= <-]. destruct previous; try discriminate;
      injection E as <-; exact I.
Qed.

Lemma get_json_raises p : raises_only expected (get_json p).
Proof.
  destruct p; [apply raises_only_ret | apply raises_only_abort_400
              | apply raises_only_ret].
Qed.

Lemma Question_insert_expected vq va vc vd :
  raises_only expected (Question_insert vq va vc vd).
Proof.
  intros s e s' H. apply Question_insert_raises in H as [_ [-> | [-> | ->]]];
    exact I.
Qed.

#[global] Hint Resolve raises_only_ret raises_only_abort_400
  raises_only_abort_404 raises_only_if get_json_raises filter_notin_raises
  Question_insert_expected : raises.
#[global] Hint Extern 1 (raises_only _ (lift _)) =>
  apply raises_only_lift;
  first [ apply subscript_raises | apply dot_get_raises | apply py_int_raises
        | apply randrange_raises | apply getitem_raises ] : raises.

Ltac raises_step :=
  first [ apply raises_only_bind; [solve [auto with raises] | intros ?]
        | solve [auto with raises] ].

Lemma handler_400 (P := expected) {A} e (h : py A) :
  match e with
  | KeyError => Some (abort 400)
  | TypeError => Some (abort 400)
  | _ => None
  end = Some h -> raises_only expected h.
Proof. destruct e; intros [= <-]; auto with raises. Qed.

Lemma view_function_raises draw r :
  raises_only expected (view_function draw r).
Proof.
  destruct r; simpl.
  - unfold get_categories. apply raises_only_bind.
    + apply raises_only_query. discriminate.
    + intros cats. auto with raises.
  - unfold get_questions. apply raises_only_bind.
    + apply raises_only_query. intros s e. unfold pg_limit_offset.
      destruct (_ || _); [|discriminate]. intros [= <-]. exact I.
    + intros rows. apply raises_only_bind.
      * apply raises_only_query. discriminate.
      * intros cats. apply raises_only_if; [auto with raises|].
        apply raises_only_bind; [apply raises_only_query; discriminate|].
        intros. auto with raises.
  - unfold delete_question. apply raises_only_try_except.
    + apply raises_only_bind.
      * apply raises_only_query. intros s e.
        destruct (pg_int4in question_id); [discriminate|].
        intros [= <-]. exact I.
      * intros q. apply raises_only_bind; [|intros; auto with raises].
        destruct q; [discriminate|]. now apply raises_only_raise.
    + intros e h. destruct e; intros [= <-]; auto with raises.
  - unfold create_question. apply raises_only_try_except.
    + repeat raises_step.
    + intros e h. apply handler_400.
  - unfold search_question. apply raises_only_try_except.
    + do 2 raises_step. apply raises_only_bind; [|intros; auto with raises].
      apply raises_only_query. intros s e.
      destruct (dangling_escape _); [|discriminate]. intros [= <-]. exact I.
    + intros e h. apply handler_400.
  - unfold get_questions_by_category. apply raises_only_try_except.
    + apply raises_only_bind; [|intros; auto with raises].
      apply raises_only_query. intros s e.
      destruct (pg_int4in category_id); [discriminate|].
      intros [= <-]. exact I.
    + intros e h. destruct e; intros [= <-]; auto with raises.
  - unfold play_quiz. apply raises_only_try_except.
    + repeat raises_step.
    + intros e h. apply handler_400.
Qed.

(** X18: every request to a route of the URL map is answered 200, or with
    the 400, 404 or 500 envelope of the error handlers; the 422 handler is
    never reached. *)
Theorem app_status (draw : nat) (r : request) (s : db) :
  ((exists v, fst (app draw r s) = (200, v)) \/
   fst (app draw r s) = bad_request \/
   fst (app draw r s) = not_found \/
   fst (app draw r s) = internal_server_error) /\
  fst (app draw r s) <> unprocessable_entity.
Proof.
  assert (H4 : (exists v, fst (app draw r s) = (200, v)) \/
               fst (app draw r s) = bad_request \/
               fst (app draw r s) = not_found \/
               fst (app draw r s) = internal_server_error);
    [|split; [exact H4|];
      destruct H4 as [[v -> ] | [-> | [-> | -> ]]]; discriminate].
  unfold app, dispatch.
  pose proof (view_function_raises draw r s) as H.
  destruct (view_function draw r s) as [[v|e] s']; simpl.
  - left. now exists v.
  - specialize (H e s' eq_refl). right.
    destruct e; simpl; auto.
    destruct H as [-> | ->]; simpl; auto.
Qed.

Lemma dispatch_reads_only view s :
  reads_only view -> snd (dispatch view s) = s.
Proof.
  intros H. unfold dispatch. specialize (H s).
  destruct (view s). exact H.
Qed.

Lemma view_function_reads_only draw r :
  writes r = false -> reads_only (view_function draw r).
Proof.
  destruct r; simpl; try discriminate; intros _.
  - unfold get_categories, Category_query_order_by_id_all.
    apply reads_only_bind; [auto with reads_only|].
    intros cats. auto with reads_only.
  - unfold get_questions, Question_query_order_by_id_limit_offset_all,
      Category_query_order_by_id_all, Question_query_count.
    apply reads_only_bind; [auto with reads_only|]. intros rows.
    apply reads_only_bind; [auto with reads_only|]. intros cats.
    apply reads_only_if; [auto with reads_only|].
    apply reads_only_bind; [auto with reads_only|]. intros total.
    auto with reads_only.
  - unfold search_question, Question_query_filter_ilike_all.
    apply reads_only_try_except.
    + repeat (apply reads_only_bind; [auto with reads_only | intros ?]).
      auto with reads_only.
    + intros e h Hh. destruct e; inversion Hh; subst; auto with reads_only.
  - unfold get_questions_by_category, Question_query_filter_category_all.
    apply reads_only_try_except.
    + repeat (apply reads_only_bind; [auto with reads_only | intros ?]).
      auto with reads_only.
    + intros e h Hh. destruct e; inversion Hh; subst; auto with reads_only.
  - apply play_quiz_reads_only.
Qed.

Lemma delete_question_keeps_categories question_id s :
  categories (snd (dispatch (delete_question question_id) s)) = categories s.
Proof.
  rewrite delete_question_run.
  destruct (pg_int4in question_id); [|reflexivity].
  destruct (find _ _); reflexivity.
Qed.

Lemma create_question_keeps_categories request_json s :
  categories (snd (dispatch (create_question request_json) s)) = categories s.
Proof.
  destruct (classic_payload request_json) as [Hno|[d ->]].
  - now rewrite create_question_not_object.
  - rewrite create_question_run.
    destruct (dict_get (KStr "question") d) as [vq|]; [|reflexivity].
    destruct (dict_get (KStr "answer") d) as [va|]; [|reflexivity].
    destruct (dict_get (KStr "difficulty") d) as [vd|]; [|reflexivity].
    destruct (dict_get (KStr "category") d) as [vc|]; [|reflexivity].
    unfold Question_insert.
    destruct (pg_text_store vq); [|reflexivity].
    destruct (pg_text_store va); [|reflexivity].
    destruct (pg_integer_store vc); [|reflexivity].
    destruct (pg_integer_store vd); [|reflexivity].
    destruct (existsb _ _); reflexivity.
Qed.

Lemma app_keeps_categories_step draw r s :
  categories (snd (app draw r s)) = categories s.
Proof.
  destruct (writes r) eqn:W.
  - destruct r; try discriminate; unfold app; simpl.
    + apply delete_question_keeps_categories.
    + apply create_question_keeps_categories.
  - unfold app. rewrite dispatch_reads_only; [reflexivity|].
    now apply view_function_reads_only.
Qed.

(** X19: DELETE /questions/<id> and POST /questions are the only requests
    that change the database, and they leave the categories as they were;
    every other request leaves the whole database unchanged. *)
Theorem app_writes_only_questions (draw : nat) (r : request) (s : db) :
  if writes r then categories (snd (app draw r s)) = categories s
  else snd (app draw r s) = s.
Proof.
  destruct (writes r) eqn:W.
  - apply app_keeps_categories_step.
  - unfold app. apply dispatch_reads_only.
    now apply view_function_reads_only.
Qed.

Lemma app_keeps_keys_step draw r s :
  db_ok s -> db_ok (snd (app draw r s)).
Proof.
  intros Hok. destruct (writes r) eqn:W.
  - destruct r; try discriminate; unfold app; simpl.
    + now apply delete_question_keeps_keys.
    + now apply create_question_keeps_keys.
  - unfold app. rewrite dispatch_reads_only; [exact Hok|].
    now apply view_function_reads_only.
Qed.


(** X2: a POST /questions request that carries no JSON object, or an object
    that lacks one of question, answer, difficulty and category, is answered
    400 and leaves the database as it was. *)
Theorem create_question_rejects_malformed (request_json : payload) (s : db) :
  (forall d, request_json = Json (PDict d) ->
     dict_get (KStr "question") d = None \/
     dict_get (KStr "answer") d = None \/
     dict_get (KStr "difficulty") d = None \/
     dict_get (KStr "category") d = None) ->
  dispatch (create_question request_json) s = (bad_request, s).
Proof.
  intros H. destruct (classic_payload request_json) as [Hno|[d ->]].
  - now apply create_question_not_object.
  - apply create_question_missing_field. now apply H.
Qed.



(** X20: over any sequence of requests the primary keys stay valid (no two
    rows share an id and the id sequence is not behind any id), and the
    category table stays as it was. *)
Theorem serve_keeps_keys (trace : list (nat * request)) (s : db) :
  db_ok s ->
  db_ok (serve trace s) /\ categories (serve trace s) = categories s.
Proof.
  revert s. induction trace as [|[draw r] trace IH]; intros s Hok.
  - split; [exact Hok | reflexivity].
  - simpl. destruct (IH _ (app_keeps_keys_step draw r s Hok)) as [H1 H2].
    split; [exact H1|]. rewrite H2.
    apply app_keeps_categories_step.
Qed.

(** ** Witnesses *)

Lemma sample_db_ok : db_ok sample_db.
Proof.
  split.
  - apply (bool_decide_unpack _). vm_compute. exact I.
  - repeat constructor; simpl; lia.
  - apply (bool_decide_unpack _). vm_compute. exact I.
Qed.


Lemma create_question_rejects_malformed_witness :
  dispatch (create_question
              (Json (PDict [(KStr "question", PStr "test delete question");
                            (KStr "answer", PStr "test delete answer")])))
    sample_db = (bad_request, sample_db).
Proof.
  apply create_question_rejects_malformed.
  intros d H. injection H as <-. right. right. left. reflexivity.
Defined.

Lemma created_question_is_listed_last_witness :
  exists row,
    created_body 6 = created_body (Question.id row) /\
    Forall (fun r => Question.id r < Question.id row) (questions sample_db) /\
    merge_sort by_question_id
      (questions (snd (dispatch (create_question
                                   (Json (sample_new_question (PInt 3))))
                         sample_db))) =
    merge_sort by_question_id (questions sample_db) ++ [row].
Proof.
  apply (created_question_is_listed_last
           (Json (sample_new_question (PInt 3))) sample_db _ _ sample_db_ok).
  vm_compute. reflexivity.
Defined.

Lemma create_then_delete_witness :
  created_body 6 = created_body 6 /\
  exists s'',
    dispatch (delete_question (decimal 6))
      (snd (dispatch (create_question (Json (sample_new_question (PInt 3))))
              sample_db)) =
      ((200, deleted_body (decimal 6)), s'') /\
    questions s'' = questions sample_db /\
    categories s'' = categories sample_db.
Proof.
  apply (create_then_delete (Json (sample_new_question (PInt 3))) sample_db).
  - vm_compute. reflexivity.
  - reflexivity.
Defined.

Lemma search_question_exact_without_wildcards_witness :
  dispatch (search_question (Json (PDict [(KStr "query", PStr "TITLE")])))
    sample_db =
    ((200, search_body
             (filter (fun q => contains_nocase "TITLE" (Question.question q) = true)
                     (questions sample_db))), sample_db).
Proof.
  apply search_question_exact_without_wildcards; reflexivity.
Defined.

Lemma search_question_rejects_malformed_witness :
  dispatch (search_question (Json (PDict [(KStr "no_query", PStr "wow")])))
    sample_db = (bad_request, sample_db).
Proof.
  apply search_question_rejects_malformed.
  intros d H. injection H as <-. reflexivity.
Defined.

Lemma search_question_empty_query_witness :
  dispatch (search_question (Json (PDict [(KStr "query", PStr "")])))
    sample_db =
    ((200, search_body
             (filter (fun q => Question.question q <> None)
                     (questions sample_db))), sample_db).
Proof.
  apply search_question_empty_query. reflexivity.
Defined.

Lemma search_question_ignores_case_witness :
  dispatch (search_question (Json (PDict [(KStr "query", PStr "Title")])))
    sample_db =
  dispatch (search_question (Json (PDict [(KStr "query", PStr "tITLE")])))
    sample_db.
Proof.
  apply (search_question_ignores_case _ _ "Title" "tITLE"); reflexivity.
Defined.


Lemma play_quiz_rejects_malformed_witness :
  dispatch (play_quiz 0 (Json (PDict [(KStr "previous_questions", PList [])])))
    sample_db = (bad_request, sample_db).
Proof.
  apply play_quiz_rejects_malformed.
  intros d H. injection H as <-. right. left. reflexivity.
Defined.

Lemma play_quiz_seen_question_leaves_witness :
  Nat.add (length (candidates ([1] ++ [2]) 2 sample_db)) 1 =
  length (candidates [1] 2 sample_db) /\
  forall draw',
    dispatch (play_quiz draw' (Json (sample_quiz_body [1; 2] (PInt 2))))
      sample_db <>
    (quiz_answer (Question.Build 2 (Some "abc") (Some "def") (Some 2) (Some 1)),
     sample_db).
Proof.
  apply (play_quiz_seen_question_leaves [1] 2
           (sample_quiz_body [1] (PInt 2)) (sample_quiz_body [1; 2] (PInt 2))
           1 sample_db
           (Question.Build 2 (Some "abc") (Some "def") (Some 2) (Some 1))).
  - apply (bool_decide_unpack _). vm_compute. exact I.
  - eexists _, _. repeat split; reflexivity.
  - eexists _, _. repeat split; reflexivity.
  - vm_compute. reflexivity.
Defined.


Lemma get_questions_pages_concat_witness :
  exists rows : nat -> list Question.t,
    (forall p, (1 <= p <= 2)%nat ->
       selected_page (page_args 2 (Z.of_nat p)) sample_db = Return (rows p)) /\
    concat (rows <$> seq 1 2) =
      take (2 * Z.to_nat 2)
        (merge_sort by_question_id (questions sample_db)) /\
    ((length (questions sample_db) <= 2 * Z.to_nat 2)%nat ->
     concat (rows <$> seq 1 2) ≡ₚ questions sample_db).
Proof.
  apply (get_questions_pages_concat 2 2 sample_db).
  - lia.
  - vm_compute. discriminate.
Defined.


Lemma get_questions_same_categories_witness :
  exists mapping,
    subscript (snd (fst (dispatch (get_questions []) sample_db))) "categories"
      = Return mapping /\
    subscript (snd (fst (dispatch get_categories sample_db))) "categories"
      = Return mapping.
Proof.
  apply (get_questions_same_categories [] sample_db);
    vm_compute; reflexivity.
Defined.

Lemma get_questions_by_category_unknown_witness :
  dispatch (get_questions_by_category "7") sample_db =
    ((200, jsonify [(KStr "success", PBool true);
                    (KStr "questions", PList []);
                    (KStr "total_questions", PInt 0);
                    (KStr "current_category", PStr "7")]), sample_db).
Proof.
  apply (get_questions_by_category_unknown "7" 7).
  - reflexivity.
  - intros q Hq. simpl in Hq.
    repeat (apply elem_of_cons in Hq as [->|Hq]; [discriminate|]).
    inversion Hq.
Defined.

Lemma serve_keeps_keys_witness :
  db_ok (serve [(0%nat, POST_questions (Json (sample_new_question (PInt 3))));
                (0%nat, DELETE_questions_id "1");
                (1%nat, POST_quizzes (Json (sample_quiz_body [] (PInt 0))))]
           sample_db) /\
  categories
    (serve [(0%nat, POST_questions (Json (sample_new_question (PInt 3))));
            (0%nat, DELETE_questions_id "1");
            (1%nat, POST_quizzes (Json (sample_quiz_body [] (PInt 0))))]
       sample_db) = categories sample_db.
Proof.
  apply serve_keeps_keys. apply sample_db_ok.
Defined.
